(** * ConnectUAE data cleaning pipeline (clean_data_script.py)

    A shallow embedding of the five cleaning stages of
    [clean_data_script.py] and of the order in which [main] runs them.

    Modelling conventions.
    - A pandas DataFrame is the list of its rows, in index order; each
      table has its own record type, in a module of its own because
      column names repeat across tables.
    - A [datetime64] value is its count of nanoseconds since the epoch,
      an integer.
    - A [float64] value is an exact rational: rounding is not modelled.
    - A column that can hold NaN / NaT is an [option]; these are the
      columns the data model lets be absent ([churn_date], [payment_date],
      [resolution_date], [data_usage_gb], [outage_duration_mins]), the
      float column [bill_amount], the [subscriber_id] by which a usage,
      billing or ticket row refers to a subscriber, and the flag columns,
      which do not exist before a stage creates them. The key column of a
      table and the timestamps the data model requires are never missing.
    - A boolean mask is a [bool]-valued function of the row, and a
      comparison with a missing value is [false], as in pandas.
    - The [print] calls only log; the numbers they print are kept as
      separate functions where a property speaks about them. *)

From Stdlib Require Import List String ZArith QArith Bool Lia.
Import ListNotations.

Local Open Scope string_scope.
Local Open Scope Q_scope.

(** ** Scalars *)

Definition Timestamp := Z.
Bind Scope Z_scope with Timestamp.

(** [x > y] on floats. *)
Definition Qgtb (x y : Q) : bool := negb (Qle_bool x y).

(** [x >= y] on floats. *)
Definition Qgeb (x y : Q) : bool := Qle_bool y x.

(** [Series.isna()] on one cell. *)
Definition isna {A} (c : option A) : bool :=
  match c with Some _ => false | None => true end.

(** [col > k] and [col >= k] on a float cell that may be NaN. *)
Definition gt_cell (c : option Q) (k : Q) : bool :=
  match c with Some q => Qgtb q k | None => false end.

Definition ge_cell (c : option Q) (k : Q) : bool :=
  match c with Some q => Qgeb q k | None => false end.

(** [a == b] on two string cells that may be NaN: false as soon as one
    of them is missing. *)
Definition eq_cell (a b : option string) : bool :=
  match a, b with
  | Some x, Some y => String.eqb x y
  | _, _ => false
  end.

(** [a < b] where [a] may be NaT and [b] is a timestamp. *)
Definition lt_date_cell (a : option Timestamp) (b : Timestamp) : bool :=
  match a with Some x => (x <? b)%Z | None => false end.

(** ** Tables *)

Module Sub.
Record row := mk {
  subscriber_id : string;
  city : string;
  plan_type : string;
  plan_name : string;
  monthly_charge : Q;
  activation_date : Timestamp;
  status : string;
  churn_date : option Timestamp
}.

Definition set_plan_type (v : string) (r : row) : row :=
  mk (subscriber_id r) (city r) v (plan_name r) (monthly_charge r)
     (activation_date r) (status r) (churn_date r).

Definition set_city (v : string) (r : row) : row :=
  mk (subscriber_id r) v (plan_type r) (plan_name r) (monthly_charge r)
     (activation_date r) (status r) (churn_date r).
End Sub.

Module Usage.
Record row := mk {
  usage_id : string;
  subscriber_id : option string;
  usage_date : Timestamp;
  data_usage_gb : option Q;
  call_minutes : Z;
  sms_count : Z;
  roaming_charges : Q;
  outlier_flag : option bool
}.

Definition set_data_usage_gb (v : option Q) (r : row) : row :=
  mk (usage_id r) (subscriber_id r) (usage_date r) v (call_minutes r)
     (sms_count r) (roaming_charges r) (outlier_flag r).

Definition set_outlier_flag (v : option bool) (r : row) : row :=
  mk (usage_id r) (subscriber_id r) (usage_date r) (data_usage_gb r)
     (call_minutes r) (sms_count r) (roaming_charges r) v.
End Usage.

Module Bill.
Record row := mk {
  bill_id : string;
  subscriber_id : option string;
  bill_date : Timestamp;
  due_date : Timestamp;
  bill_amount : option Q;
  payment_status : string;
  payment_date : option Timestamp;
  data_quality_flag : option bool
}.

Definition set_data_quality_flag (v : option bool) (r : row) : row :=
  mk (bill_id r) (subscriber_id r) (bill_date r) (due_date r)
     (bill_amount r) (payment_status r) (payment_date r) v.
End Bill.

Module Ticket.
Record row := mk {
  ticket_id : string;
  subscriber_id : option string;
  ticket_date : Timestamp;
  ticket_category : string;
  ticket_status : string;
  ticket_channel : string;
  resolution_date : option Timestamp;
  data_quality_flag : option bool
}.

Definition set_ticket_status (v : string) (r : row) : row :=
  mk (ticket_id r) (subscriber_id r) (ticket_date r) (ticket_category r)
     v (ticket_channel r) (resolution_date r) (data_quality_flag r).

Definition set_resolution_date (v : option Timestamp) (r : row) : row :=
  mk (ticket_id r) (subscriber_id r) (ticket_date r) (ticket_category r)
     (ticket_status r) (ticket_channel r) v (data_quality_flag r).

Definition set_data_quality_flag (v : option bool) (r : row) : row :=
  mk (ticket_id r) (subscriber_id r) (ticket_date r) (ticket_category r)
     (ticket_status r) (ticket_channel r) (resolution_date r) v.
End Ticket.

Module Outage.
Record row := mk {
  outage_id : string;
  affected_city : string;
  outage_type : string;
  outage_start_time : Timestamp;
  outage_end_time : Timestamp;
  outage_duration_mins : option Q;
  affected_subscribers : Z;
  outlier_flag : option bool
}.

Definition set_outage_duration_mins (v : option Q) (r : row) : row :=
  mk (outage_id r) (affected_city r) (outage_type r) (outage_start_time r)
     (outage_end_time r) v (affected_subscribers r) (outlier_flag r).

Definition set_outlier_flag (v : option bool) (r : row) : row :=
  mk (outage_id r) (affected_city r) (outage_type r) (outage_start_time r)
     (outage_end_time r) (outage_duration_mins r) (affected_subscribers r) v.
End Outage.

(** The five tables every stage receives and returns, in the order
    [subscribers, usage, billing, tickets, outages]. *)
Record Tables := mkTables {
  subscribers : list Sub.row;
  usage : list Usage.row;
  billing : list Bill.row;
  tickets : list Ticket.row;
  outages : list Outage.row
}.

(** ** pandas primitives *)

(** Membership of a string in a list of strings ([isin], and the set of
    keys already met by [drop_duplicates] and [unique]). *)
Definition mem (k : string) (l : list string) : bool :=
  existsb (String.eqb k) l.

Section DropDuplicates.
Context {A : Type} (key : A -> string).

(** [df.drop_duplicates(subset=[key], keep='first')]: a row is dropped
    when its key was met on an earlier row. *)
Fixpoint drop_duplicates_from (seen : list string) (l : list A) : list A :=
  match l with
  | [] => []
  | r :: l' =>
      if mem (key r) seen then drop_duplicates_from seen l'
      else r :: drop_duplicates_from (key r :: seen) l'
  end.

Definition drop_duplicates (l : list A) : list A :=
  drop_duplicates_from [] l.

(** The number a stage prints: [orig - len(df)]. *)
Definition duplicates_removed (l : list A) : nat :=
  (List.length l - List.length (drop_duplicates l))%nat.
End DropDuplicates.

(** The values [Series.unique()] tells apart: two strings that are
    equal, and NaN with NaN. *)
Definition same_cell (a b : option string) : bool :=
  match a, b with
  | Some x, Some y => String.eqb x y
  | None, None => true
  | _, _ => false
  end.

Definition mem_cell (c : option string) (l : list (option string)) : bool :=
  existsb (same_cell c) l.

(** [Series.unique()]: the distinct values, by first appearance; NaN is
    one of them when a cell is missing. *)
Fixpoint unique_from (seen l : list (option string))
    : list (option string) :=
  match l with
  | [] => []
  | c :: l' =>
      if mem_cell c seen then unique_from seen l'
      else c :: unique_from (c :: seen) l'
  end.

Definition unique (l : list (option string)) : list (option string) :=
  unique_from [] l.

(** [Series.replace(mapping)] on one cell: exact, case-sensitive match on
    the keys of the dict; other values pass through. *)
Definition replace (mapping : list (string * string)) (v : string) : string :=
  match find (fun kv => String.eqb (fst kv) v) mapping with
  | Some kv => snd kv
  | None => v
  end.

(** [Series.mean()] over the non-missing values: NaN on an empty series. *)
Definition mean (l : list Q) : option Q :=
  match l with
  | [] => None
  | _ => Some (fold_left Qplus l 0 / inject_Z (Z.of_nat (List.length l)))
  end.

(** ** Stage 1: remove_duplicates *)

Definition remove_duplicates (d : Tables) : Tables :=
  mkTables
    (drop_duplicates Sub.subscriber_id (subscribers d))
    (drop_duplicates Usage.usage_id (usage d))
    (drop_duplicates Bill.bill_id (billing d))
    (drop_duplicates Ticket.ticket_id (tickets d))
    (drop_duplicates Outage.outage_id (outages d)).

(** The five counts printed by [remove_duplicates]. *)
Definition remove_duplicates_counts (d : Tables) : list nat :=
  [ duplicates_removed Sub.subscriber_id (subscribers d);
    duplicates_removed Usage.usage_id (usage d);
    duplicates_removed Bill.bill_id (billing d);
    duplicates_removed Ticket.ticket_id (tickets d);
    duplicates_removed Outage.outage_id (outages d) ].

(** ** Stage 2: standardize_labels *)

Definition plan_type_mapping : list (string * string) :=
  [ ("prepaid", "Prepaid"); ("PREPAID", "Prepaid"); ("Pre-paid", "Prepaid");
    ("postpaid", "Postpaid"); ("POSTPAID", "Postpaid");
    ("Post-paid", "Postpaid") ].

Definition city_mapping : list (string * string) :=
  [ ("AbuDhabi", "Abu Dhabi"); ("Abu-Dhabi", "Abu Dhabi"); ("AD", "Abu Dhabi");
    ("dubai", "Dubai"); ("DUBAI", "Dubai") ].

Definition status_mapping : list (string * string) :=
  [ ("resolved", "Resolved"); ("RESOLVED", "Resolved"); ("Closed", "Resolved");
    ("open", "Open"); ("OPEN", "Open") ].

Definition standardize_subscriber (s : Sub.row) : Sub.row :=
  let s := Sub.set_plan_type (replace plan_type_mapping (Sub.plan_type s)) s in
  Sub.set_city (replace city_mapping (Sub.city s)) s.

Definition standardize_ticket (t : Ticket.row) : Ticket.row :=
  Ticket.set_ticket_status (replace status_mapping (Ticket.ticket_status t)) t.

Definition standardize_labels (d : Tables) : Tables :=
  mkTables
    (map standardize_subscriber (subscribers d))
    (usage d)
    (billing d)
    (map standardize_ticket (tickets d))
    (outages d).

(** ** Stage 3: handle_missing_values *)

(** [usage[(usage['subscriber_id'] == sub_id) &
    usage['data_usage_gb'].notna()]['data_usage_gb']]. *)
Definition known_usage (tbl : list Usage.row) (sub_id : option string)
    : list Q :=
  flat_map
    (fun r =>
       if eq_cell (Usage.subscriber_id r) sub_id then
         match Usage.data_usage_gb r with Some q => [q] | None => [] end
       else [])
    tbl.

(** [usage.loc[(usage['subscriber_id'] == sub_id) &
    usage['data_usage_gb'].isna(), 'data_usage_gb'] = v]. *)
Definition assign_missing_usage (sub_id : option string) (v : Q)
    (tbl : list Usage.row) : list Usage.row :=
  map
    (fun r =>
       if eq_cell (Usage.subscriber_id r) sub_id
          && isna (Usage.data_usage_gb r)
       then Usage.set_data_usage_gb (Some v) r
       else r)
    tbl.

(** One pass of the loop body, for one [sub_id]; when [sub_id] is NaN
    both masks are empty, the mean is NaN and the assignment of 0 reaches
    no row. *)
Definition impute_subscriber (tbl : list Usage.row) (sub_id : option string)
    : list Usage.row :=
  match mean (known_usage tbl sub_id) with
  | Some sub_avg => assign_missing_usage sub_id sub_avg tbl
  | None => assign_missing_usage sub_id 0 tbl
  end.

(** The subscribers the loop visits:
    [usage[usage['data_usage_gb'].isna()]['subscriber_id'].unique()]. *)
Definition subscribers_with_missing (tbl : list Usage.row)
    : list (option string) :=
  unique
    (map Usage.subscriber_id
       (filter (fun r => isna (Usage.data_usage_gb r)) tbl)).

Definition impute_usage (tbl : list Usage.row) : list Usage.row :=
  fold_left impute_subscriber (subscribers_with_missing tbl) tbl.

Definition paid_without_date (b : Bill.row) : bool :=
  String.eqb (Bill.payment_status b) "Paid" && isna (Bill.payment_date b).

Definition flag_bill (b : Bill.row) : Bill.row :=
  let b := Bill.set_data_quality_flag (Some false) b in
  if paid_without_date b then Bill.set_data_quality_flag (Some true) b else b.

Definition resolved_without_date (t : Ticket.row) : bool :=
  String.eqb (Ticket.ticket_status t) "Resolved"
  && isna (Ticket.resolution_date t).

Definition flag_ticket (t : Ticket.row) : Ticket.row :=
  let t := Ticket.set_data_quality_flag (Some false) t in
  if resolved_without_date t then Ticket.set_data_quality_flag (Some true) t
  else t.

(** [(outage_end_time - outage_start_time).dt.total_seconds() / 60]. *)
Definition outage_minutes (o : Outage.row) : Q :=
  inject_Z (Outage.outage_end_time o - Outage.outage_start_time o)
  / 1000000000 / 60.

Definition fill_duration (o : Outage.row) : Outage.row :=
  if isna (Outage.outage_duration_mins o)
  then Outage.set_outage_duration_mins (Some (outage_minutes o)) o
  else o.

Definition handle_missing_values (d : Tables) : Tables :=
  mkTables
    (subscribers d)
    (impute_usage (usage d))
    (map flag_bill (billing d))
    (map flag_ticket (tickets d))
    (map fill_duration (outages d)).

(** ** Stage 4: handle_outliers *)

Definition cap_usage (u : Usage.row) : Usage.row :=
  let extreme := gt_cell (Usage.data_usage_gb u) 100 in
  let u := Usage.set_outlier_flag (Some extreme) u in
  if gt_cell (Usage.data_usage_gb u) 100
  then Usage.set_data_usage_gb (Some 100) u
  else u.

Definition flag_extreme_bill (b : Bill.row) : Bill.row :=
  if gt_cell (Bill.bill_amount b) 2000
  then Bill.set_data_quality_flag (Some true) b
  else b.

Definition flag_extreme_outage (o : Outage.row) : Outage.row :=
  Outage.set_outlier_flag
    (Some (gt_cell (Outage.outage_duration_mins o) 1440)) o.

Definition handle_outliers (d : Tables) : Tables :=
  mkTables
    (subscribers d)
    (map cap_usage (usage d))
    (map flag_extreme_bill (billing d))
    (tickets d)
    (map flag_extreme_outage (outages d)).

(** ** Stage 5: fix_impossible_values *)

Definition fix_ticket (t : Ticket.row) : Ticket.row :=
  let t :=
    if lt_date_cell (Ticket.resolution_date t) (Ticket.ticket_date t)
    then Ticket.set_resolution_date None t
    else t in
  if isna (Ticket.resolution_date t)
     && String.eqb (Ticket.ticket_status t) "Resolved"
  then Ticket.set_ticket_status "In Progress" t
  else t.

(** The join condition of the merge: a usage row without [subscriber_id]
    joins with no subscriber, whose key is never missing. *)
Definition joins (c : option string) (k : string) : bool :=
  match c with Some x => String.eqb x k | None => false end.

(** [usage.merge(subscribers[['subscriber_id', 'activation_date']],
    on='subscriber_id')]: the inner join, one row per matching pair. *)
Definition merge_activation (us : list Usage.row) (ss : list Sub.row)
    : list (Usage.row * Timestamp) :=
  flat_map
    (fun u =>
       map (fun s => (u, Sub.activation_date s))
         (filter
            (fun s => joins (Usage.subscriber_id u) (Sub.subscriber_id s))
            ss))
    us.

Definition valid_usage_ids (us : list Usage.row) (ss : list Sub.row)
    : list string :=
  map (fun m => Usage.usage_id (fst m))
    (filter (fun m => (Usage.usage_date (fst m) >=? snd m)%Z)
       (merge_activation us ss)).

Definition fix_impossible_values (d : Tables) : Tables :=
  let billing' := filter (fun b => ge_cell (Bill.bill_amount b) 0) (billing d) in
  let tickets' := map fix_ticket (tickets d) in
  let valid := valid_usage_ids (usage d) (subscribers d) in
  let usage' := filter (fun u => mem (Usage.usage_id u) valid) (usage d) in
  mkTables (subscribers d) usage' billing' tickets' (outages d).

(** ** The pipeline of [main], between [load_raw_data] and
    [save_cleaned_data] *)

Definition main (raw : Tables) : Tables :=
  let d := remove_duplicates raw in
  let d := standardize_labels d in
  let d := handle_missing_values d in
  let d := handle_outliers d in
  fix_impossible_values d.

(** ** Specification-side definitions *)

(** [out] keeps, of the rows of [inp], exactly the first one for each
    key: its keys are pairwise distinct, each row it holds is the first
    row of [inp] with that key, and each key of [inp] is represented. *)
Definition first_per_key {A} (key : A -> string) (inp out : list A) : Prop :=
  NoDup (map key out)
  /\ (forall r, In r out ->
        find (fun x => String.eqb (key x) (key r)) inp = Some r)
  /\ (forall r, In r inp -> exists r', In r' out /\ key r' = key r).

(** [v] is one of the variants a synonym table intercepts. *)
Definition is_variant (mapping : list (string * string)) (v : string) : bool :=
  existsb (fun kv => String.eqb (fst kv) v) mapping.

(** Already-canonical data: no mapped column holds a variant. *)
Definition canonical (d : Tables) : bool :=
  forallb
    (fun s => negb (is_variant plan_type_mapping (Sub.plan_type s))
              && negb (is_variant city_mapping (Sub.city s)))
    (subscribers d)
  && forallb
       (fun t => negb (is_variant status_mapping (Ticket.ticket_status t)))
       (tickets d).

(** The imputation as the specification words it, row by row: a missing
    [data_usage_gb] becomes the mean of the non-missing values the same
    subscriber has in [tbl], or 0 when there is none; a non-missing one
    is kept. A row that names no subscriber belongs to none of the
    subscribers the rule speaks of, and is kept as it is. *)
Definition imputed_row (tbl : list Usage.row) (r : Usage.row) : Usage.row :=
  match Usage.data_usage_gb r with
  | Some _ => r
  | None =>
      match Usage.subscriber_id r with
      | None => r
      | Some sub_id =>
          match mean (known_usage tbl (Some sub_id)) with
          | Some avg => Usage.set_data_usage_gb (Some avg) r
          | None => Usage.set_data_usage_gb (Some 0) r
          end
      end
  end.

(** The tables as they reach stage 3 and stage 5 when [main] runs. *)
Definition before_missing_values (raw : Tables) : Tables :=
  standardize_labels (remove_duplicates raw).

Definition before_fix_impossible (raw : Tables) : Tables :=
  handle_outliers (handle_missing_values (before_missing_values raw)).

(** ** Sample tables *)

Definition day : Timestamp := 86400000000000%Z.

Definition at_day (n : Z) : Timestamp := (n * day)%Z.

Definition sample_subscribers : list Sub.row :=
  [ Sub.mk "SUB000001" "DUBAI" "prepaid" "Basic" 75 (at_day 10) "Active" None;
    Sub.mk "SUB000002" "Al Ain" "Postpaid" "Premium" 250 (at_day 20) "Churned"
      (Some (at_day 90));
    Sub.mk "SUB000001" "Dubai" "Prepaid" "Basic" 80 (at_day 11) "Active" None ].

Definition sample_usage : list Usage.row :=
  [ Usage.mk "USG0000001" (Some "SUB000001") (at_day 30)
      (Some 10) 12 3 0 None;
    Usage.mk "USG0000002" (Some "SUB000001") (at_day 31)
      (Some 20) 40 0 0 None;
    Usage.mk "USG0000003" (Some "SUB000001") (at_day 32)
      None 7 1 0 None;
    Usage.mk "USG0000004" (Some "SUB000002") (at_day 33)
      None 0 0 0 None;
    Usage.mk "USG0000005" (Some "SUB000002") (at_day 34)
      (Some 750) 5 9 25 None;
    Usage.mk "USG0000006" (Some "SUB000002") (at_day 15)
      (Some 4) 5 9 0 None;
    Usage.mk "USG0000007" (Some "SUB000999") (at_day 40)
      (Some 8) 1 1 0 None;
    Usage.mk "USG0000002" (Some "SUB000002") (at_day 41)
      (Some 9) 2 2 0 None ].

Definition sample_billing : list Bill.row :=
  [ Bill.mk "BILL0000001" (Some "SUB000001") (at_day 50) (at_day 65)
      (Some 120) "Paid" (Some (at_day 60)) None;
    Bill.mk "BILL0000002" (Some "SUB000001") (at_day 50) (at_day 65)
      (Some 95) "Paid" None None;
    Bill.mk "BILL0000003" (Some "SUB000002") (at_day 50) (at_day 65)
      (Some 7300) "Overdue" None None;
    Bill.mk "BILL0000004" (Some "SUB000002") (at_day 50) (at_day 65)
      (Some (-50)) "Pending" None None;
    Bill.mk "BILL0000005" (Some "SUB000002") (at_day 50) (at_day 65)
      None "Pending" None None ].

Definition sample_tickets : list Ticket.row :=
  [ Ticket.mk "TKT0000001" (Some "SUB000001") (at_day 40)
      "Billing Query" "Resolved" "App" (Some (at_day 41)) None;
    Ticket.mk "TKT0000002" (Some "SUB000001") (at_day 42)
      "Complaint" "Resolved" "App" (Some (at_day 41)) None;
    Ticket.mk "TKT0000003" (Some "SUB000002") (at_day 43)
      "Plan Change" "Closed" "Call Center" None None;
    Ticket.mk "TKT0000004" (Some "SUB000002") (at_day 44)
      "Network Issue" "open" "Online Chat" None None ].

Definition sample_outages : list Outage.row :=
  [ Outage.mk "OUT00001" "Dubai" "Fiber Cut" (at_day 60)
      (at_day 60 + 5400000000000)%Z None 1200 None;
    Outage.mk "OUT00002" "Sharjah" "Weather" (at_day 61) (at_day 63)
      (Some 2880) 300 None;
    Outage.mk "OUT00003" "Ajman" "Power Outage" (at_day 62)
      (at_day 62 + 3600000000000)%Z (Some 60) 150 None ].

Definition sample : Tables :=
  mkTables sample_subscribers sample_usage sample_billing sample_tickets
    sample_outages.

(** The scenario of the specification: one subscriber, three usage rows,
    two with 10 and 20 GB and one missing. *)
Definition scenario_usage : list Usage.row :=
  [ Usage.mk "USG0000001" (Some "SUB000001") (at_day 30) (Some 10) 0 0 0 None;
    Usage.mk "USG0000002" (Some "SUB000001") (at_day 31) (Some 20) 0 0 0 None;
    Usage.mk "USG0000003" (Some "SUB000001") (at_day 32) None 0 0 0 None ].

(** A usage table with a row that misses both its [subscriber_id] and
    its [data_usage_gb], after two rows of one subscriber. *)
Definition gap_usage : list Usage.row :=
  [ Usage.mk "USG0000001" (Some "SUB000001") (at_day 30) (Some 10) 0 0 0 None;
    Usage.mk "USG0000002" (Some "SUB000001") (at_day 31) None 0 0 0 None;
    Usage.mk "USG0000003" None (at_day 32) None 0 0 0 None ].

(** The usage row of the sample that references no subscriber, as it
    reaches stage 5. *)
Definition sample_orphan : Usage.row :=
  Usage.mk "USG0000007" (Some "SUB000999") (at_day 40)
    (Some 8) 1 1 0 (Some false).

(** Tables that are already canonical. *)
Definition canonical_sample : Tables :=
  mkTables
    [ Sub.mk "SUB000001" "Dubai" "Prepaid" "Basic" 75 (at_day 10) "Active" None;
      Sub.mk "SUB000002" "Al Ain" "Postpaid" "Premium" 250 (at_day 20)
        "Active" None ]
    [] []
    [ Ticket.mk "TKT0000001" (Some "SUB000001") (at_day 40) "Billing Query"
        "Escalated" "App" None None ]
    [].

(** ** What the stages print *)

(** [mask.sum()], and [df[mask].shape[0]]: the number of rows on which a
    boolean mask holds. *)
Definition count {A} (mask : A -> bool) (l : list A) : nat :=
  List.length (filter mask l).

(** [col < k] on a float cell that may be NaN. *)
Definition lt_cell (c : option Q) (k : Q) : bool :=
  match c with Some q => Qgtb k q | None => false end.

(** [flag_column.sum()]: the rows whose flag is [True]. *)
Definition is_true (f : option bool) : bool :=
  match f with Some true => true | _ => false end.

(** The counts [handle_missing_values] prints, computed on the tables it
    receives. *)
Definition missing_usage (d : Tables) : nat :=
  count (fun u => isna (Usage.data_usage_gb u)) (usage d).

Definition missing_payment (d : Tables) : nat :=
  count paid_without_date (billing d).

Definition missing_resolution (d : Tables) : nat :=
  count resolved_without_date (tickets d).


(** The counts [handle_outliers] prints. *)
Definition extreme_usage (d : Tables) : nat :=
  count (fun u => gt_cell (Usage.data_usage_gb u) 100) (usage d).

Definition extreme_bills (d : Tables) : nat :=
  count (fun b => gt_cell (Bill.bill_amount b) 2000) (billing d).

Definition extreme_outages (d : Tables) : nat :=
  count (fun o => gt_cell (Outage.outage_duration_mins o) 1440) (outages d).

(** The counts [fix_impossible_values] prints. *)
Definition negative_bills (d : Tables) : nat :=
  count (fun b => lt_cell (Bill.bill_amount b) 0) (billing d).

Definition impossible_tickets (d : Tables) : nat :=
  count
    (fun t => lt_date_cell (Ticket.resolution_date t) (Ticket.ticket_date t))
    (tickets d).


(** ** generate_summary_report *)

(** The numbers of the report: the five final record counts and the four
    sums of flag columns. *)
Record Summary := mkSummary {
  n_subscribers : nat;
  n_usage : nat;
  n_billing : nat;
  n_tickets : nat;
  n_outages : nat;
  billing_flagged : nat;
  tickets_flagged : nat;
  usage_outliers : nat;
  outage_outliers : nat
}.

Definition generate_summary_report (d : Tables) : Summary :=
  mkSummary
    (List.length (subscribers d))
    (List.length (usage d))
    (List.length (billing d))
    (List.length (tickets d))
    (List.length (outages d))
    (count (fun b => is_true (Bill.data_quality_flag b)) (billing d))
    (count (fun t => is_true (Ticket.data_quality_flag t)) (tickets d))
    (count (fun u => is_true (Usage.outlier_flag u)) (usage d))
    (count (fun o => is_true (Outage.outlier_flag o)) (outages d)).


(** ** The dashboard (streamlit_telecom_app.py): the numbers it shows *)

(** [col <= k] on a float cell that may be NaN. *)
Definition le_cell (c : option Q) (k : Q) : bool :=
  match c with Some q => Qle_bool q k | None => false end.

(** [Series.duplicated()], with the default [keep='first']: the mask of
    the values met on an earlier row. *)
Fixpoint duplicated_from (seen l : list string) : list bool :=
  match l with
  | [] => []
  | k :: l' =>
      if mem k seen then true :: duplicated_from seen l'
      else false :: duplicated_from (k :: seen) l'
  end.

Definition duplicated (l : list string) : list bool := duplicated_from [] l.

Module Dashboard.

(** The metrics of [show_data_quality_report]. *)
Definition missing_usage (d : Tables) : nat :=
  count (fun u => isna (Usage.data_usage_gb u)) (usage d).

Definition missing_billing (d : Tables) : nat :=
  count (fun b => isna (Bill.payment_date b)) (billing d).

Definition missing_tickets (d : Tables) : nat :=
  count (fun t => isna (Ticket.resolution_date t)) (tickets d).

Definition dup_subscribers (d : Tables) : nat :=
  count (fun b : bool => b)
    (duplicated (map Sub.subscriber_id (subscribers d))).

Definition dup_tickets (d : Tables) : nat :=
  count (fun b : bool => b) (duplicated (map Ticket.ticket_id (tickets d))).

Definition dup_billing (d : Tables) : nat :=
  count (fun b : bool => b) (duplicated (map Bill.bill_id (billing d))).

Definition outlier_usage (d : Tables) : nat :=
  count (fun u => gt_cell (Usage.data_usage_gb u) 500) (usage d).

Definition outlier_bills (d : Tables) : nat :=
  count (fun b => gt_cell (Bill.bill_amount b) 5000) (billing d).


(** The ticket figures of [operations_view]. *)
Definition resolved (d : Tables) : list Ticket.row :=
  filter (fun t => String.eqb (Ticket.ticket_status t) "Resolved") (tickets d).

(** [(resolution_date - ticket_date).dt.total_seconds() / 3600]. *)
Definition resolution_time (t : Ticket.row) : option Q :=
  match Ticket.resolution_date t with
  | Some r => Some (inject_Z (r - Ticket.ticket_date t) / 1000000000 / 3600)
  | None => None
  end.

Definition sla_compliant (d : Tables) : nat :=
  count (fun t => le_cell (resolution_time t) 48) (resolved d).

Definition sla_rate (d : Tables) : Q :=
  if (0 <? List.length (resolved d))%nat
  then inject_Z (Z.of_nat (sla_compliant d))
       / inject_Z (Z.of_nat (List.length (resolved d))) * 100
  else 0.

End Dashboard.

(** ** The generator (data_generator_script.py): label injection *)

Module Generator.

(** The [plan_variations], [city_variations] and [status_variations]
    dicts: a clean label and the spellings that may replace it. *)
Definition plan_variations : list (string * list string) :=
  [ ("Prepaid", ["PREPAID"; "prepaid"; "Pre-paid"]);
    ("Postpaid", ["POSTPAID"; "postpaid"; "Post-paid"]) ].

Definition city_variations : list (string * list string) :=
  [ ("Abu Dhabi", ["AbuDhabi"; "Abu-Dhabi"; "AD"]);
    ("Dubai", ["DUBAI"; "dubai"]) ].

Definition status_variations : list (string * list string) :=
  [ ("Resolved", ["resolved"; "RESOLVED"; "Closed"]);
    ("Open", ["open"; "OPEN"]) ].

(** [variations[original]], when [original in variations]. *)
Definition lookup (variations : list (string * list string))
    (original : string) : option (list string) :=
  match find (fun kv => String.eqb (fst kv) original) variations with
  | Some kv => Some (snd kv)
  | None => None
  end.

(** [result.iloc[idx] = v], for an index in range. *)
Fixpoint set_iloc (idx : nat) (v : string) (l : list string) {struct l}
    : list string :=
  match l, idx with
  | [], _ => []
  | _ :: l', O => v :: l'
  | x :: l', S i => x :: set_iloc i v l'
  end.

(** One pass of the loop of [inject_inconsistent_labels]. The two random
    draws are arguments: [idx] is the index taken from
    [np.random.choice], and [k] stands for the position [random.choice]
    picks in the list of spellings, taken modulo its length. [None] is an
    [IndexError]: an index beyond the series, or a choice in an empty
    list. *)
Definition inject_one (variations : list (string * list string))
    (result : list string) (draw : nat * nat) : option (list string) :=
  match nth_error result (fst draw) with
  | None => None
  | Some original =>
      match lookup variations original with
      | None => Some result
      | Some spellings =>
          match nth_error spellings (snd draw mod List.length spellings) with
          | Some v => Some (set_iloc (fst draw) v result)
          | None => None
          end
      end
  end.

(** [inject_inconsistent_labels(series, variations)], for the draws the
    random generators make, one pair per changed index. *)
Definition inject_inconsistent_labels (series : list string)
    (variations : list (string * list string)) (draws : list (nat * nat))
    : option (list string) :=
  fold_left
    (fun acc draw =>
       match acc with
       | Some result => inject_one variations result draw
       | None => None
       end)
    draws (Some series).

End Generator.

(** The cleaner's synonym table sends every spelling the generator may
    write for a clean label back to that label, and keeps the label. *)
Definition undoes (mapping : list (string * string))
    (variations : list (string * list string)) : bool :=
  forallb
    (fun kv =>
       String.eqb (replace mapping (fst kv)) (fst kv)
       && forallb (fun v => String.eqb (replace mapping v) (fst kv)) (snd kv))
    variations.

(** Standardizing an injected series gives what standardizing the
    series gives, whatever was drawn; a series without variants comes
    back as it was. *)
Definition round_trip (mapping : list (string * string))
    (variations : list (string * list string)) : Prop :=
  forall (series : list string) (draws : list (nat * nat))
         (result : list string),
    Generator.inject_inconsistent_labels series variations draws
    = Some result ->
    map (replace mapping) result = map (replace mapping) series
    /\ (forallb (fun v => negb (is_variant mapping v)) series = true ->
        map (replace mapping) result = series).

(** * Properties *)

(** ** Membership and comparisons *)

Lemma mem_In (k : string) (l : list string) : mem k l = true <-> In k l.
Proof.
  unfold mem. rewrite existsb_exists. split.
  - intros [x [Hx E]]. apply String.eqb_eq in E. now subst.
  - intros H. exists k. split; [assumption | apply String.eqb_refl].
Qed.

Lemma mem_not_In (k : string) (l : list string) :
  mem k l = false <-> ~ In k l.
Proof.
  rewrite <- mem_In. destruct (mem k l); split; congruence.
Qed.

Lemma Qgtb_lt (x y : Q) : Qgtb x y = true <-> y < x.
Proof.
  unfold Qgtb. rewrite negb_true_iff. split.
  - intros H. apply Qnot_le_lt. intros L.
    apply Qle_bool_iff in L. congruence.
  - intros H. destruct (Qle_bool x y) eqn:E; [|reflexivity].
    apply Qle_bool_iff in E. exfalso. exact (Qlt_not_le _ _ H E).
Qed.

Lemma Qgeb_le (x y : Q) : Qgeb x y = true <-> y <= x.
Proof. unfold Qgeb. apply Qle_bool_iff. Qed.

Lemma gt_cell_true (c : option Q) (k : Q) :
  gt_cell c k = true <-> exists q, c = Some q /\ k < q.
Proof.
  destruct c as [q|]; simpl.
  - rewrite Qgtb_lt. split.
    + intros H. now exists q.
    + intros [q' [E H]]. now inversion E.
  - split; [discriminate | intros [q [E _]]; discriminate].
Qed.

Lemma ge_cell_true (c : option Q) (k : Q) :
  ge_cell c k = true <-> exists q, c = Some q /\ k <= q.
Proof.
  destruct c as [q|]; simpl.
  - rewrite Qgeb_le. split.
    + intros H. now exists q.
    + intros [q' [E H]]. now inversion E.
  - split; [discriminate | intros [q [E _]]; discriminate].
Qed.

Lemma lt_date_cell_true (a : option Timestamp) (b : Timestamp) :
  lt_date_cell a b = true <-> exists x, a = Some x /\ (x < b)%Z.
Proof.
  destruct a as [x|]; simpl.
  - rewrite Z.ltb_lt. split.
    + intros H. now exists x.
    + intros [x' [E H]]. now inversion E.
  - split; [discriminate | intros [x [E _]]; discriminate].
Qed.

(** ** drop_duplicates *)

Section DropDuplicatesFacts.
Context {A : Type} (key : A -> string).

Lemma drop_duplicates_from_In (seen : list string) (l : list A) (r : A) :
  In r (drop_duplicates_from key seen l) -> In r l /\ ~ In (key r) seen.
Proof.
  revert seen. induction l as [|a l IH]; intros seen; simpl.
  - intros [].
  - destruct (mem (key a) seen) eqn:E.
    + intros H. apply IH in H. tauto.
    + intros [-> | H].
      * split; [now left | now apply mem_not_In].
      * apply IH in H. simpl in H. tauto.
Qed.

Lemma drop_duplicates_from_NoDup (seen : list string) (l : list A) :
  NoDup (map key (drop_duplicates_from key seen l)).
Proof.
  revert seen. induction l as [|a l IH]; intros seen; simpl.
  - constructor.
  - destruct (mem (key a) seen); [apply IH|].
    simpl. constructor; [|apply IH].
    rewrite in_map_iff. intros [r [E H]].
    apply drop_duplicates_from_In in H. simpl in H. intuition congruence.
Qed.

Lemma drop_duplicates_from_first (seen : list string) (l : list A) (r : A) :
  In r (drop_duplicates_from key seen l) ->
  find (fun x => String.eqb (key x) (key r)) l = Some r.
Proof.
  revert seen. induction l as [|a l IH]; intros seen; simpl.
  - intros [].
  - destruct (mem (key a) seen) eqn:E.
    + intros H. destruct (String.eqb_spec (key a) (key r)) as [K|K].
      * apply drop_duplicates_from_In in H. apply mem_In in E.
        rewrite K in E. tauto.
      * now apply IH with seen.
    + intros [-> | H]; [now rewrite String.eqb_refl|].
      destruct (String.eqb_spec (key a) (key r)) as [K|K].
      * apply drop_duplicates_from_In in H. simpl in H. tauto.
      * now apply IH with (key a :: seen).
Qed.

Lemma drop_duplicates_from_covers (seen : list string) (l : list A) (r : A) :
  In r l -> ~ In (key r) seen ->
  exists r', In r' (drop_duplicates_from key seen l) /\ key r' = key r.
Proof.
  revert seen. induction l as [|a l IH]; intros seen; simpl.
  - intros [].
  - intros Hin Hseen. destruct (mem (key a) seen) eqn:E.
    + destruct Hin as [-> | Hin].
      * apply mem_In in E. tauto.
      * now apply IH.
    + destruct (String.eqb_spec (key a) (key r)) as [K|K].
      * exists a. split; [now left | assumption].
      * destruct Hin as [-> | Hin]; [congruence|].
        destruct (IH (key a :: seen) Hin) as [r' [H1 H2]].
        -- simpl. intros [F|F]; tauto.
        -- exists r'. split; [now right | assumption].
Qed.

Lemma drop_duplicates_first_per_key (l : list A) :
  first_per_key key l (drop_duplicates key l).
Proof.
  unfold first_per_key, drop_duplicates. repeat split.
  - apply drop_duplicates_from_NoDup.
  - intros r. apply drop_duplicates_from_first.
  - intros r H. apply drop_duplicates_from_covers; [assumption | intros []].
Qed.

Lemma drop_duplicates_incl (l : list A) (r : A) :
  In r (drop_duplicates key l) -> In r l.
Proof. intros H. now apply drop_duplicates_from_In in H. Qed.

Lemma drop_duplicates_NoDup (l : list A) :
  NoDup (map key (drop_duplicates key l)).
Proof. apply drop_duplicates_from_NoDup. Qed.

End DropDuplicatesFacts.

(** C7. For each of the five tables and its key column,
    [remove_duplicates] keeps exactly one row per distinct key of the
    input, the first in input order, and nothing else; on an empty table
    it returns the empty table and the count of removed rows is zero. *)
Theorem remove_duplicates_keeps_first_per_key :
  (forall d : Tables,
     first_per_key Sub.subscriber_id
       (subscribers d) (subscribers (remove_duplicates d))
     /\ first_per_key Usage.usage_id (usage d) (usage (remove_duplicates d))
     /\ first_per_key Bill.bill_id (billing d) (billing (remove_duplicates d))
     /\ first_per_key Ticket.ticket_id
          (tickets d) (tickets (remove_duplicates d))
     /\ first_per_key Outage.outage_id
          (outages d) (outages (remove_duplicates d)))
  /\ remove_duplicates (mkTables [] [] [] [] []) = mkTables [] [] [] [] []
  /\ remove_duplicates_counts (mkTables [] [] [] [] [])
     = [0; 0; 0; 0; 0]%nat.
Proof.
  split; [|split; reflexivity].
  intros d. unfold remove_duplicates; simpl.
  repeat split; apply drop_duplicates_first_per_key.
Qed.

(** On the sample, the second [SUB000001] row is dropped and the first
    one is the row kept for that key. *)
Lemma remove_duplicates_keeps_first_per_key_witness :
  In (nth 0 sample_subscribers (Sub.mk "" "" "" "" 0 0 "" None))
     (subscribers (remove_duplicates sample))
  /\ find (fun x => String.eqb (Sub.subscriber_id x) "SUB000001")
       (subscribers sample)
     = Some (nth 0 sample_subscribers (Sub.mk "" "" "" "" 0 0 "" None)).
Proof.
  split; [simpl; now left|].
  destruct remove_duplicates_keeps_first_per_key as [H _].
  destruct (H sample) as [[_ [Hfirst _]] _].
  apply (Hfirst (nth 0 sample_subscribers (Sub.mk "" "" "" "" 0 0 "" None))).
  simpl. now left.
Defined.

(** ** standardize_labels *)

Lemma replace_not_variant (m : list (string * string)) (v : string) :
  is_variant m v = false -> replace m v = v.
Proof.
  unfold is_variant, replace. induction m as [|kv m IH]; simpl.
  - reflexivity.
  - destruct (String.eqb (fst kv) v); simpl; [discriminate | exact IH].
Qed.

Lemma replace_range (m : list (string * string)) (v : string) :
  replace m v = v \/ In (replace m v) (map snd m).
Proof.
  unfold replace. destruct (find _ m) as [kv|] eqn:E; [|now left].
  right. apply find_some in E. apply in_map. tauto.
Qed.

Lemma replace_idempotent (m : list (string * string)) (v : string) :
  (forall c, In c (map snd m) -> is_variant m c = false) ->
  replace m (replace m v) = replace m v.
Proof.
  intros Hm. destruct (replace_range m v) as [E|H].
  - now rewrite E.
  - apply replace_not_variant. now apply Hm.
Qed.

Ltac check_targets :=
  simpl; intros c H;
  repeat (destruct H as [<-|H]; [reflexivity|]); destruct H.

Lemma plan_type_targets c :
  In c (map snd plan_type_mapping) -> is_variant plan_type_mapping c = false.
Proof. revert c. check_targets. Qed.

Lemma city_targets c :
  In c (map snd city_mapping) -> is_variant city_mapping c = false.
Proof. revert c. check_targets. Qed.

Lemma status_targets c :
  In c (map snd status_mapping) -> is_variant status_mapping c = false.
Proof. revert c. check_targets. Qed.

Lemma standardize_subscriber_idempotent (s : Sub.row) :
  standardize_subscriber (standardize_subscriber s) = standardize_subscriber s.
Proof.
  destruct s. unfold standardize_subscriber, Sub.set_city, Sub.set_plan_type.
  simpl. rewrite (replace_idempotent plan_type_mapping) by apply plan_type_targets.
  rewrite (replace_idempotent city_mapping) by apply city_targets.
  reflexivity.
Qed.

Lemma standardize_ticket_idempotent (t : Ticket.row) :
  standardize_ticket (standardize_ticket t) = standardize_ticket t.
Proof.
  destruct t. unfold standardize_ticket, Ticket.set_ticket_status. simpl.
  rewrite (replace_idempotent status_mapping) by apply status_targets.
  reflexivity.
Qed.

Lemma map_fixed {A} (f : A -> A) (l : list A) :
  (forall x, In x l -> f x = x) -> map f l = l.
Proof.
  induction l as [|a l IH]; simpl; intros H; [reflexivity|].
  rewrite H by now left. rewrite IH; [reflexivity|].
  intros x Hx. apply H. now right.
Qed.

(** C6. [standardize_labels] is idempotent on every table state, and it
    returns already-canonical tables unchanged. *)
Theorem standardize_labels_idempotent :
  (forall d : Tables,
     standardize_labels (standardize_labels d) = standardize_labels d)
  /\ (forall d : Tables, canonical d = true -> standardize_labels d = d).
Proof.
  split.
  - intros d. unfold standardize_labels. simpl. f_equal.
    + rewrite map_map. apply map_ext. apply standardize_subscriber_idempotent.
    + rewrite map_map. apply map_ext. apply standardize_ticket_idempotent.
  - intros [ss us bs ts os]. unfold canonical, standardize_labels. simpl.
    rewrite andb_true_iff, !forallb_forall. intros [Hs Ht]. f_equal.
    + apply map_fixed. intros s Hin. specialize (Hs s Hin).
      rewrite andb_true_iff, !negb_true_iff in Hs. destruct Hs as [Hp Hc].
      destruct s. unfold standardize_subscriber, Sub.set_city, Sub.set_plan_type.
      simpl in *. now rewrite !replace_not_variant.
    + apply map_fixed. intros t Hin. specialize (Ht t Hin).
      rewrite negb_true_iff in Ht.
      destruct t. unfold standardize_ticket, Ticket.set_ticket_status.
      simpl in *. now rewrite replace_not_variant.
Qed.

(** The canonical sample passes through unchanged. *)
Lemma standardize_labels_idempotent_witness :
  canonical canonical_sample = true
  /\ standardize_labels canonical_sample = canonical_sample.
Proof.
  split; [reflexivity|].
  apply (proj2 standardize_labels_idempotent canonical_sample).
  reflexivity.
Defined.

(** ** handle_missing_values: the imputation loop *)

Lemma eq_cell_true (a b : option string) : eq_cell a b = true -> a = b.
Proof.
  destruct a as [x|], b as [y|]; simpl; try discriminate.
  intros E. apply String.eqb_eq in E. now subst.
Qed.

Lemma eq_cell_refl (x : string) : eq_cell (Some x) (Some x) = true.
Proof. simpl. apply String.eqb_refl. Qed.

Lemma eq_cell_same (a b : option string) :
  eq_cell a b = false -> same_cell a b = true -> a = None /\ b = None.
Proof.
  destruct a as [x|], b as [y|]; simpl; try discriminate; try tauto.
  intros E S. congruence.
Qed.

Lemma same_cell_eq (a b : option string) : same_cell a b = true <-> a = b.
Proof.
  destruct a as [x|], b as [y|]; simpl; split; try discriminate; auto.
  - intros E. apply String.eqb_eq in E. now subst.
  - intros E. inversion E. apply String.eqb_refl.
Qed.

Lemma mem_cell_In (c : option string) (l : list (option string)) :
  mem_cell c l = true <-> In c l.
Proof.
  unfold mem_cell. rewrite existsb_exists. split.
  - intros [x [Hx E]]. apply same_cell_eq in E. now subst.
  - intros H. exists c. split; [assumption | now apply same_cell_eq].
Qed.

Lemma mem_cell_not_In (c : option string) (l : list (option string)) :
  mem_cell c l = false <-> ~ In c l.
Proof.
  rewrite <- mem_cell_In. destruct (mem_cell c l); split; congruence.
Qed.

Lemma mem_cell_cons (c s : option string) (l : list (option string)) :
  mem_cell c (s :: l) = same_cell c s || mem_cell c l.
Proof. reflexivity. Qed.

Lemma unique_from_In (seen l : list (option string)) (c : option string) :
  In c (unique_from seen l) -> In c l /\ ~ In c seen.
Proof.
  revert seen. induction l as [|a l IH]; intros seen; simpl.
  - intros [].
  - destruct (mem_cell a seen) eqn:E.
    + intros H. apply IH in H. tauto.
    + intros [-> | H].
      * split; [now left | now apply mem_cell_not_In].
      * apply IH in H. simpl in H. tauto.
Qed.

Lemma unique_from_NoDup (seen l : list (option string)) :
  NoDup (unique_from seen l).
Proof.
  revert seen. induction l as [|a l IH]; intros seen; simpl.
  - constructor.
  - destruct (mem_cell a seen); [apply IH|].
    constructor; [|apply IH].
    intros H. apply unique_from_In in H. simpl in H. tauto.
Qed.

Lemma unique_from_covers (seen l : list (option string)) (c : option string) :
  In c l -> ~ In c seen -> In c (unique_from seen l).
Proof.
  revert seen. induction l as [|a l IH]; intros seen; simpl.
  - intros [].
  - intros Hin Hseen. destruct (mem_cell a seen) eqn:E.
    + destruct Hin as [-> | Hin].
      * apply mem_cell_In in E. tauto.
      * now apply IH.
    + destruct (same_cell a c) eqn:S.
      * apply same_cell_eq in S. subst. now left.
      * right. destruct Hin as [-> | Hin].
        -- assert (same_cell c c = true) by now apply same_cell_eq.
           congruence.
        -- apply IH; [assumption|]. intros [F|F]; [|tauto].
           subst. assert (same_cell c c = true) by now apply same_cell_eq.
           congruence.
Qed.

Lemma imputed_row_subscriber (tbl : list Usage.row) (r : Usage.row) :
  Usage.subscriber_id (imputed_row tbl r) = Usage.subscriber_id r.
Proof.
  unfold imputed_row. destruct (Usage.data_usage_gb r); [reflexivity|].
  destruct (Usage.subscriber_id r) eqn:E; [|exact E].
  destruct (mean _); exact E.
Qed.

Lemma known_usage_map (g : Usage.row -> Usage.row) (l : list Usage.row)
    (s : option string) :
  (forall r, Usage.subscriber_id (g r) = Usage.subscriber_id r) ->
  (forall r, Usage.subscriber_id r = s -> g r = r) ->
  known_usage (map g l) s = known_usage l s.
Proof.
  intros Hid Hfix. unfold known_usage.
  induction l as [|a l IH]; simpl; [reflexivity|].
  rewrite IH, Hid. destruct (eq_cell (Usage.subscriber_id a) s) eqn:E.
  - now rewrite (Hfix a (eq_cell_true _ _ E)).
  - reflexivity.
Qed.

Section ImputationLoop.
Variable orig : list Usage.row.

(** The table after the loop has visited the subscribers in [done]. *)
Let visited (done : list (option string)) : list Usage.row :=
  map (fun r => if mem_cell (Usage.subscriber_id r) done
                then imputed_row orig r else r) orig.

Lemma impute_subscriber_visits (done : list (option string))
    (s : option string) :
  ~ In s done ->
  impute_subscriber (visited done) s = visited (s :: done).
Proof.
  intros Hs. apply mem_cell_not_In in Hs.
  assert (K : known_usage (visited done) s = known_usage orig s).
  { apply known_usage_map.
    - intros r. destruct (mem_cell (Usage.subscriber_id r) done);
        [apply imputed_row_subscriber | reflexivity].
    - intros r <-. now rewrite Hs. }
  unfold impute_subscriber. rewrite K.
  assert (G : forall v,
    mean (known_usage orig s) = Some v \/
    (mean (known_usage orig s) = None /\ v = 0) ->
    assign_missing_usage s v (visited done) = visited (s :: done)).
  { intros v Hv. unfold assign_missing_usage, visited. rewrite map_map.
    apply map_ext. intros r. rewrite mem_cell_cons.
    destruct (eq_cell (Usage.subscriber_id r) s) eqn:E.
    - pose proof (eq_cell_true _ _ E) as Es.
      assert (M : mem_cell (Usage.subscriber_id r) done = false)
        by (now rewrite Es).
      assert (S : same_cell (Usage.subscriber_id r) s = true)
        by (now apply same_cell_eq).
      rewrite M, S. cbv iota. rewrite E. cbn [andb orb].
      unfold imputed_row.
      destruct (Usage.data_usage_gb r); [reflexivity|]. cbn [isna].
      rewrite Es. destruct s as [x|].
      + destruct Hv as [-> | [-> ->]]; reflexivity.
      + rewrite Es in E. discriminate E.
    - assert (E' : eq_cell
                     (Usage.subscriber_id
                        (if mem_cell (Usage.subscriber_id r) done
                         then imputed_row orig r else r)) s = false).
      { destruct (mem_cell (Usage.subscriber_id r) done);
          [now rewrite imputed_row_subscriber | exact E]. }
      rewrite E'. cbn [andb].
      destruct (same_cell (Usage.subscriber_id r) s) eqn:S;
        [|reflexivity].
      destruct (eq_cell_same _ _ E S) as [Er Es]. subst s.
      assert (M : mem_cell (Usage.subscriber_id r) done = false)
        by (now rewrite Er).
      rewrite M. cbn [orb]. unfold imputed_row. rewrite Er.
      destruct (Usage.data_usage_gb r); reflexivity. }
  destruct (mean (known_usage orig s)) as [avg|]; apply G; auto.
Qed.

Lemma impute_loop (subs done : list (option string)) :
  NoDup subs -> (forall s, In s subs -> ~ In s done) ->
  fold_left impute_subscriber subs (visited done)
  = visited (rev subs ++ done).
Proof.
  revert done. induction subs as [|s subs IH]; intros done Hnd Hdis; simpl.
  - reflexivity.
  - inversion Hnd as [|? ? Hs Hnd']; subst.
    rewrite impute_subscriber_visits by (apply Hdis; now left).
    rewrite IH; [now rewrite <- app_assoc | assumption |].
    intros s' Hin [<-|Hd]; [contradiction|].
    apply (Hdis s'); [now right | assumption].
Qed.

Lemma visited_nil : visited [] = orig.
Proof. unfold visited. simpl. apply map_id. Qed.

Lemma impute_usage_rows : impute_usage orig = map (imputed_row orig) orig.
Proof.
  unfold impute_usage. rewrite <- visited_nil at 2.
  rewrite impute_loop.
  - unfold visited. apply map_ext_in. intros r Hr.
    destruct (mem_cell _ _) eqn:E; [reflexivity|].
    unfold imputed_row. destruct (Usage.data_usage_gb r) eqn:D; [reflexivity|].
    exfalso. apply mem_cell_not_In in E. apply E.
    rewrite app_nil_r, <- in_rev. unfold subscribers_with_missing, unique.
    apply unique_from_covers; [|intros []].
    apply in_map. apply filter_In. split; [assumption | now rewrite D].
  - unfold subscribers_with_missing, unique. apply unique_from_NoDup.
  - intros s _ [].
Qed.

End ImputationLoop.

(** C2. The usage table leaving [handle_missing_values] is the input
    table with every row of a subscriber that misses [data_usage_gb]
    imputed with the mean of the same subscriber's non-missing values (0
    when there are none) and every other row unchanged; in the scenario
    with values 10 and 20 and one missing row, the missing row receives
    15. *)
Theorem handle_missing_values_imputes_subscriber_mean :
  (forall d : Tables,
     usage (handle_missing_values d) = map (imputed_row (usage d)) (usage d))
  /\ (exists v : Q,
        map Usage.data_usage_gb
          (usage (handle_missing_values (mkTables [] scenario_usage [] [] [])))
        = [Some 10; Some 20; Some v]
        /\ v == 15).
Proof.
  split.
  - intros d. simpl. apply impute_usage_rows.
  - exists (30 # 2). split; reflexivity.
Qed.

Lemma Forall2_map_self {A B} (R : A -> B -> Prop) (f : A -> B) (l : list A) :
  (forall x, R x (f x)) -> Forall2 R l (map f l).
Proof. intros H. induction l; simpl; constructor; auto. Qed.

Lemma Forall2_nth_error {A B} (R : A -> B -> Prop) (l : list A)
    (l' : list B) (n : nat) (x : A) :
  Forall2 R l l' -> nth_error l n = Some x ->
  exists y, nth_error l' n = Some y /\ R x y.
Proof.
  intros H. revert n. induction H as [|a b l l' Hab _ IH]; intros n.
  - destruct n; discriminate.
  - destruct n as [|n]; simpl.
    + intros E. inversion E; subst. now exists b.
    + apply IH.
Defined.

(** C3. [handle_missing_values] does not leave every usage row with a
    [data_usage_gb]: on a table whose third row misses both its
    [subscriber_id] and its value, the value is still missing after the
    stage, because the loop compares [subscriber_id] with [==], which
    holds of no row when the id is missing. For every input the stage
    returns the usage rows in their order, changed at most in
    [data_usage_gb]: a row that had a value, or that names no subscriber,
    is as it was, and a row that names a subscriber has a value. No
    outage row misses [outage_duration_mins]: a missing duration holds end
    minus start in minutes, on a row otherwise as it was, and the other
    outage rows are unchanged. *)
Theorem handle_missing_values_gap_without_subscriber :
  map Usage.data_usage_gb
    (usage (handle_missing_values (mkTables [] gap_usage [] [] [])))
  = [Some 10; Some 10; None]
  /\ (forall d : Tables,
        Forall2
          (fun u u' =>
             u' = Usage.set_data_usage_gb (Usage.data_usage_gb u') u
             /\ (isna (Usage.data_usage_gb u) = false -> u' = u)
             /\ (Usage.subscriber_id u = None -> u' = u)
             /\ (Usage.subscriber_id u <> None ->
                 isna (Usage.data_usage_gb u') = false))
          (usage d) (usage (handle_missing_values d))
        /\ Forall (fun o => isna (Outage.outage_duration_mins o) = false)
             (outages (handle_missing_values d))
        /\ Forall2
             (fun o o' =>
                match Outage.outage_duration_mins o with
                | Some _ => o' = o
                | None =>
                    o' = Outage.set_outage_duration_mins
                           (Some (inject_Z (Outage.outage_end_time o
                                            - Outage.outage_start_time o)
                                  / 1000000000 / 60)) o
                end)
             (outages d) (outages (handle_missing_values d))).
Proof.
  split; [reflexivity|].
  intros d. cbn [usage outages handle_missing_values]. repeat apply conj.
  - rewrite impute_usage_rows. apply Forall2_map_self. intros u.
    unfold imputed_row.
    destruct u as [uid [sid|] ud [q|] cm sc rc fl]; cbn;
      try destruct (mean _); repeat apply conj;
      try reflexivity; try discriminate; try congruence.
  - apply Forall_forall. intros o Ho.
    apply in_map_iff in Ho. destruct Ho as [r [<- _]].
    unfold fill_duration. destruct (Outage.outage_duration_mins r) eqn:E; simpl.
    + now rewrite E.
    + reflexivity.
  - apply Forall2_map_self. intros o. unfold fill_duration.
    destruct (Outage.outage_duration_mins o); reflexivity.
Qed.

(** ** handle_outliers *)

Lemma not_gt_cell (c : option Q) (k : Q) :
  (forall q, c = Some q -> q <= k) -> gt_cell c k = false.
Proof.
  intros H. destruct (gt_cell c k) eqn:E; [|reflexivity].
  apply gt_cell_true in E. destruct E as [q [Eq Hq]].
  exfalso. exact (Qlt_not_le _ _ Hq (H q Eq)).
Qed.

(** C8. [handle_outliers] changes, in a usage row, only [outlier_flag]
    and [data_usage_gb]: above 100 the flag is true and the value is 100,
    otherwise the value is kept; in a billing row only
    [data_quality_flag], set to true above 2000 and kept otherwise, so
    [bill_amount] is unchanged; in an outage row only [outlier_flag], true
    above 1440, so [outage_duration_mins] is unchanged; subscribers and
    tickets are returned as they came. *)
Theorem handle_outliers_frame (d : Tables) :
  Forall2
    (fun u u' =>
       u' = Usage.set_outlier_flag (Usage.outlier_flag u')
              (Usage.set_data_usage_gb (Usage.data_usage_gb u') u)
       /\ (forall q, Usage.data_usage_gb u = Some q -> 100 < q ->
             Usage.outlier_flag u' = Some true
             /\ Usage.data_usage_gb u' = Some 100)
       /\ ((forall q, Usage.data_usage_gb u = Some q -> q <= 100) ->
             Usage.outlier_flag u' = Some false
             /\ Usage.data_usage_gb u' = Usage.data_usage_gb u))
    (usage d) (usage (handle_outliers d))
  /\ Forall2
       (fun b b' =>
          b' = Bill.set_data_quality_flag (Bill.data_quality_flag b') b
          /\ Bill.bill_amount b' = Bill.bill_amount b
          /\ (forall q, Bill.bill_amount b = Some q -> 2000 < q ->
                Bill.data_quality_flag b' = Some true)
          /\ ((forall q, Bill.bill_amount b = Some q -> q <= 2000) ->
                b' = b))
       (billing d) (billing (handle_outliers d))
  /\ Forall2
       (fun o o' =>
          o' = Outage.set_outlier_flag (Outage.outlier_flag o') o
          /\ Outage.outage_duration_mins o' = Outage.outage_duration_mins o
          /\ (forall q, Outage.outage_duration_mins o = Some q -> 1440 < q ->
                Outage.outlier_flag o' = Some true)
          /\ ((forall q, Outage.outage_duration_mins o = Some q -> q <= 1440) ->
                Outage.outlier_flag o' = Some false))
       (outages d) (outages (handle_outliers d))
  /\ subscribers (handle_outliers d) = subscribers d
  /\ tickets (handle_outliers d) = tickets d.
Proof.
  simpl. repeat apply conj; try reflexivity.
  - apply Forall2_map_self. intros u. unfold cap_usage. simpl.
    repeat apply conj.
    + destruct u as [? ? ? c ? ? ? ?]; simpl.
      destruct (gt_cell c 100); reflexivity.
    + intros q E L.
      assert (G : gt_cell (Usage.data_usage_gb u) 100 = true)
        by (apply gt_cell_true; eauto).
      rewrite G. simpl. auto.
    + intros H. rewrite (not_gt_cell _ _ H). simpl. auto.
  - apply Forall2_map_self. intros b. unfold flag_extreme_bill.
    repeat apply conj.
    + destruct b as [? ? ? ? c ? ? ?]; simpl.
      destruct (gt_cell c 2000); reflexivity.
    + destruct (gt_cell _ 2000); reflexivity.
    + intros q E L.
      assert (G : gt_cell (Bill.bill_amount b) 2000 = true)
        by (apply gt_cell_true; eauto).
      now rewrite G.
    + intros H. now rewrite (not_gt_cell _ _ H).
  - apply Forall2_map_self. intros o. unfold flag_extreme_outage.
    repeat apply conj; try reflexivity.
    + intros q E L. simpl. f_equal. apply gt_cell_true; eauto.
    + intros H. simpl. now rewrite (not_gt_cell _ _ H).
Qed.

(** On the sample, the 750 GB row is flagged and capped at 100, and the
    7300 bill is flagged with its amount kept. *)
Lemma handle_outliers_frame_witness :
  (exists u',
     nth_error (usage (handle_outliers sample)) 4 = Some u'
     /\ Usage.outlier_flag u' = Some true
     /\ Usage.data_usage_gb u' = Some 100)
  /\ (exists b',
        nth_error (billing (handle_outliers sample)) 2 = Some b'
        /\ Bill.data_quality_flag b' = Some true
        /\ Bill.bill_amount b' = Some 7300).
Proof.
  destruct (handle_outliers_frame sample) as [Hu [Hb _]]. split.
  - destruct (Forall2_nth_error _ _ _ 4%nat _ Hu eq_refl)
      as [u' [E [_ [H _]]]].
    exists u'. split; [exact E|]. apply (H 750); reflexivity.
  - destruct (Forall2_nth_error _ _ _ 2%nat _ Hb eq_refl)
      as [b' [E [_ [A [H _]]]]].
    exists b'. split; [exact E|]. split.
    + apply (H 7300); reflexivity.
    + rewrite A. reflexivity.
Defined.

(** ** fix_impossible_values *)

Ltac fix_ticket_cases t :=
  destruct t as [? ? td ? st ? [r|] ?]; unfold fix_ticket; simpl;
  try destruct (Z.ltb r td); simpl;
  destruct (String.eqb st "Resolved"); reflexivity.

Lemma fix_ticket_resolution (t : Ticket.row) :
  Ticket.resolution_date (fix_ticket t)
  = if lt_date_cell (Ticket.resolution_date t) (Ticket.ticket_date t)
    then None else Ticket.resolution_date t.
Proof.
  fix_ticket_cases t.
Qed.

Lemma fix_ticket_date (t : Ticket.row) :
  Ticket.ticket_date (fix_ticket t) = Ticket.ticket_date t.
Proof.
  fix_ticket_cases t.
Qed.

Lemma fix_ticket_flag (t : Ticket.row) :
  Ticket.data_quality_flag (fix_ticket t) = Ticket.data_quality_flag t.
Proof.
  fix_ticket_cases t.
Qed.

Lemma fix_ticket_id (t : Ticket.row) :
  Ticket.ticket_id (fix_ticket t) = Ticket.ticket_id t.
Proof.
  fix_ticket_cases t.
Qed.

Lemma fix_ticket_status (t : Ticket.row) :
  Ticket.ticket_status (fix_ticket t)
  = if isna (Ticket.resolution_date (fix_ticket t))
       && String.eqb (Ticket.ticket_status t) "Resolved"
    then "In Progress" else Ticket.ticket_status t.
Proof.
  rewrite fix_ticket_resolution. fix_ticket_cases t.
Qed.

(** C5. [fix_impossible_values] clears the [resolution_date] of every
    ticket whose resolution is earlier than its [ticket_date] and keeps
    the others; a ticket that is Resolved and is left without a
    [resolution_date] becomes In Progress, so that no ticket leaves the
    stage Resolved with a missing [resolution_date]. *)
Theorem fix_impossible_values_repairs_tickets (d : Tables) :
  Forall2
    (fun t t' =>
       (forall r, Ticket.resolution_date t = Some r ->
                  (r < Ticket.ticket_date t)%Z ->
                  Ticket.resolution_date t' = None)
       /\ (forall r, Ticket.resolution_date t = Some r ->
                     (Ticket.ticket_date t <= r)%Z ->
                     Ticket.resolution_date t' = Some r)
       /\ (Ticket.ticket_status t = "Resolved" ->
           Ticket.resolution_date t' = None ->
           Ticket.ticket_status t' = "In Progress"))
    (tickets d) (tickets (fix_impossible_values d))
  /\ Forall
       (fun t' => ~ (Ticket.ticket_status t' = "Resolved"
                     /\ Ticket.resolution_date t' = None))
       (tickets (fix_impossible_values d)).
Proof.
  simpl. split.
  - apply Forall2_map_self. intros t. repeat apply conj.
    + intros r E L. rewrite fix_ticket_resolution.
      assert (G : lt_date_cell (Ticket.resolution_date t)
                    (Ticket.ticket_date t) = true)
        by (apply lt_date_cell_true; eauto).
      now rewrite G.
    + intros r E L. rewrite fix_ticket_resolution, E. simpl.
      destruct (Z.ltb_spec r (Ticket.ticket_date t)); [lia | reflexivity].
    + intros S N. rewrite fix_ticket_status, N, S. reflexivity.
  - apply Forall_forall. intros t' Hin.
    apply in_map_iff in Hin. destruct Hin as [t [<- _]].
    intros [S N]. rewrite fix_ticket_status, N in S. simpl in S.
    destruct (String.eqb_spec (Ticket.ticket_status t) "Resolved") as [E|E].
    + discriminate S.
    + contradiction.
Qed.

(** On the sample, the second ticket, resolved a day before it was
    opened, loses its [resolution_date] and becomes In Progress. *)
Lemma fix_impossible_values_repairs_tickets_witness :
  exists t',
    nth_error (tickets (fix_impossible_values sample)) 1 = Some t'
    /\ Ticket.resolution_date t' = None
    /\ Ticket.ticket_status t' = "In Progress".
Proof.
  destruct (fix_impossible_values_repairs_tickets sample) as [H _].
  destruct (Forall2_nth_error _ _ _ 1%nat _ H eq_refl)
    as [t' [E [Hclear [_ Hdown]]]].
  exists t'. split; [exact E|].
  assert (N : Ticket.resolution_date t' = None)
    by (apply (Hclear (at_day 41)); reflexivity).
  split; [exact N|]. apply Hdown; [reflexivity | exact N].
Defined.

Lemma fix_impossible_values_billing_In (d : Tables) (b : Bill.row) :
  In b (billing (fix_impossible_values d))
  <-> In b (billing d) /\ exists q, Bill.bill_amount b = Some q /\ 0 <= q.
Proof. simpl. now rewrite filter_In, ge_cell_true. Qed.

(** C10. [fix_impossible_values] keeps exactly the billing rows whose
    [bill_amount] is a number at least 0: a row with a missing amount is
    removed like a row with a negative one, and no billing row of the
    output misses its amount. *)
Theorem fix_impossible_values_drops_missing_amount (d : Tables) :
  (forall b, In b (billing d) -> Bill.bill_amount b = None ->
             ~ In b (billing (fix_impossible_values d)))
  /\ (forall b q, In b (billing d) -> Bill.bill_amount b = Some q -> q < 0 ->
                  ~ In b (billing (fix_impossible_values d)))
  /\ (forall b q, In b (billing d) -> Bill.bill_amount b = Some q -> 0 <= q ->
                  In b (billing (fix_impossible_values d)))
  /\ (forall b, In b (billing (fix_impossible_values d)) ->
                In b (billing d)
                /\ exists q, Bill.bill_amount b = Some q /\ 0 <= q).
Proof.
  simpl. repeat apply conj.
  - intros b _ N H. apply filter_In in H. destruct H as [_ H].
    rewrite N in H. discriminate.
  - intros b q _ E L H. apply filter_In in H. destruct H as [_ H].
    apply ge_cell_true in H. destruct H as [q' [E' L']].
    rewrite E in E'. inversion E'; subst.
    exact (Qlt_not_le _ _ L L').
  - intros b q Hin E L. apply filter_In. split; [assumption|].
    apply ge_cell_true. eauto.
  - intros b H. now apply fix_impossible_values_billing_In.
Qed.

(** On the sample, the bill with a missing amount is not in the output. *)
Lemma fix_impossible_values_drops_missing_amount_witness :
  exists b,
    nth_error (billing sample) 4 = Some b
    /\ Bill.bill_amount b = None
    /\ ~ In b (billing (fix_impossible_values sample)).
Proof.
  eexists. split; [reflexivity|]. split; [reflexivity|].
  apply (proj1 (fix_impossible_values_drops_missing_amount sample)).
  - simpl. tauto.
  - reflexivity.
Defined.

(** ** The flags along the pipeline *)

Lemma isna_None {A} (c : option A) : isna c = true <-> c = None.
Proof. destruct c; simpl; split; congruence. Qed.

Lemma paid_without_date_true (b : Bill.row) :
  paid_without_date b = true
  <-> Bill.payment_status b = "Paid" /\ Bill.payment_date b = None.
Proof.
  unfold paid_without_date.
  now rewrite andb_true_iff, String.eqb_eq, isna_None.
Qed.

Lemma resolved_without_date_true (t : Ticket.row) :
  resolved_without_date t = true
  <-> Ticket.ticket_status t = "Resolved" /\ Ticket.resolution_date t = None.
Proof.
  unfold resolved_without_date.
  now rewrite andb_true_iff, String.eqb_eq, isna_None.
Qed.

Lemma flagged_bill (b : Bill.row) :
  flag_extreme_bill (flag_bill b)
  = Bill.set_data_quality_flag
      (Some (paid_without_date b || gt_cell (Bill.bill_amount b) 2000)) b.
Proof.
  unfold flag_extreme_bill, flag_bill.
  replace (paid_without_date (Bill.set_data_quality_flag (Some false) b))
    with (paid_without_date b) by reflexivity.
  destruct (paid_without_date b); simpl;
    destruct (gt_cell (Bill.bill_amount b) 2000); reflexivity.
Qed.

Lemma flagged_ticket (t : Ticket.row) :
  flag_ticket t
  = Ticket.set_data_quality_flag (Some (resolved_without_date t)) t.
Proof.
  unfold flag_ticket.
  replace (resolved_without_date (Ticket.set_data_quality_flag (Some false) t))
    with (resolved_without_date t) by reflexivity.
  destruct (resolved_without_date t); reflexivity.
Qed.

Lemma Some_true_iff (x : bool) : Some x = Some true <-> x = true.
Proof. split; congruence. Qed.

(** C4. In the output of the pipeline a billing row is flagged exactly
    when it is Paid without a [payment_date] or its [bill_amount] exceeds
    2000; a ticket row is flagged exactly when the ticket was Resolved
    without a [resolution_date] as [handle_missing_values] received it,
    which is also the state of the ticket as it leaves that stage. *)
Theorem data_quality_flag_iff_rule (d : Tables) :
  Forall
    (fun b =>
       Bill.data_quality_flag b = Some true
       <-> (Bill.payment_status b = "Paid" /\ Bill.payment_date b = None)
           \/ (exists q, Bill.bill_amount b = Some q /\ 2000 < q))
    (billing (main d))
  /\ Forall2
       (fun t t' =>
          Ticket.ticket_id t' = Ticket.ticket_id t
          /\ (Ticket.data_quality_flag t' = Some true
              <-> Ticket.ticket_status t = "Resolved"
                  /\ Ticket.resolution_date t = None))
       (tickets (before_missing_values d)) (tickets (main d))
  /\ Forall
       (fun t =>
          Ticket.data_quality_flag t = Some true
          <-> Ticket.ticket_status t = "Resolved"
              /\ Ticket.resolution_date t = None)
       (tickets (handle_missing_values d)).
Proof.
  repeat apply conj.
  - apply Forall_forall. intros b Hin. unfold main in Hin. simpl in Hin.
    apply filter_In in Hin. destruct Hin as [Hin _].
    rewrite map_map in Hin. apply in_map_iff in Hin.
    destruct Hin as [b0 [<- _]]. rewrite flagged_bill. simpl.
    now rewrite Some_true_iff, orb_true_iff, paid_without_date_true,
      gt_cell_true.
  - unfold main, before_missing_values. simpl. rewrite map_map.
    apply Forall2_map_self. intros t.
    rewrite fix_ticket_id, fix_ticket_flag, flagged_ticket. simpl.
    split; [reflexivity|].
    now rewrite Some_true_iff, resolved_without_date_true.
  - simpl. apply Forall_forall. intros t' Hin.
    apply in_map_iff in Hin. destruct Hin as [t [<- _]].
    rewrite flagged_ticket. simpl.
    now rewrite Some_true_iff, resolved_without_date_true.
Qed.

(** On the sample, the bill that is Paid without a date is flagged in the
    output, and the ticket that arrived as Closed without a resolution
    date, hence Resolved after canonicalization, is flagged too. *)
Lemma data_quality_flag_iff_rule_witness :
  (exists b,
     nth_error (billing (main sample)) 1 = Some b
     /\ Bill.data_quality_flag b = Some true)
  /\ (exists t',
        nth_error (tickets (main sample)) 2 = Some t'
        /\ Ticket.data_quality_flag t' = Some true).
Proof.
  destruct (data_quality_flag_iff_rule sample) as [Hb [Ht _]]. split.
  - eexists. split; [reflexivity|].
    eapply (proj1 (Forall_forall _ _) Hb).
    + simpl. right. left. reflexivity.
    + left. split; reflexivity.
  - destruct (Forall2_nth_error _ _ _ 2%nat _ Ht eq_refl) as [t' [E [_ H]]].
    exists t'. split; [exact E|]. apply H. split; reflexivity.
Defined.

(** ** The join with the subscribers *)

Lemma NoDup_map_In_eq {A} (f : A -> string) (l : list A) (x y : A) :
  NoDup (map f l) -> In x l -> In y l -> f x = f y -> x = y.
Proof.
  induction l as [|a l IH]; simpl; intros Hnd Hx Hy E; [contradiction|].
  inversion Hnd as [|? ? Ha Hnd']; subst.
  destruct Hx as [-> | Hx], Hy as [-> | Hy]; auto.
  - exfalso. apply Ha. rewrite E. now apply in_map.
  - exfalso. apply Ha. rewrite <- E. now apply in_map.
Qed.

Lemma joins_true (c : option string) (k : string) :
  joins c k = true <-> c = Some k.
Proof.
  destruct c as [x|]; simpl; [|split; discriminate].
  rewrite String.eqb_eq. split; congruence.
Qed.

Lemma valid_usage_ids_In (us : list Usage.row) (ss : list Sub.row)
    (k : string) :
  In k (valid_usage_ids us ss)
  <-> exists u s,
        In u us /\ In s ss
        /\ Usage.subscriber_id u = Some (Sub.subscriber_id s)
        /\ Usage.usage_id u = k
        /\ (Sub.activation_date s <= Usage.usage_date u)%Z.
Proof.
  unfold valid_usage_ids, merge_activation. rewrite in_map_iff. split.
  - intros [[u a] [Ek H]]. simpl in Ek.
    apply filter_In in H. destruct H as [H G]. simpl in G.
    apply in_flat_map in H. destruct H as [u0 [Hu0 H]].
    apply in_map_iff in H. destruct H as [s [Es Hs]].
    inversion Es; subst. apply filter_In in Hs. destruct Hs as [Hs Eid].
    apply joins_true in Eid. exists u, s.
    repeat split; auto. now apply Z.geb_le.
  - intros [u [s [Hu [Hs [Eid [Ek L]]]]]].
    exists (u, Sub.activation_date s). split; [exact Ek|].
    apply filter_In. split.
    + apply in_flat_map. exists u. split; [assumption|].
      apply in_map_iff. exists s. split; [reflexivity|].
      apply filter_In. split; [assumption|].
      now apply joins_true.
    + simpl. now apply Z.geb_le.
Qed.

Lemma fix_impossible_values_usage_In (d : Tables) (u : Usage.row) :
  NoDup (map Usage.usage_id (usage d)) ->
  In u (usage (fix_impossible_values d))
  <-> In u (usage d)
      /\ exists s, In s (subscribers d)
                   /\ Usage.subscriber_id u = Some (Sub.subscriber_id s)
                   /\ (Sub.activation_date s <= Usage.usage_date u)%Z.
Proof.
  intros Hnd. simpl. rewrite filter_In, mem_In, valid_usage_ids_In. split.
  - intros [Hu [u0 [s [Hu0 [Hs [Eid [Ek L]]]]]]]. split; [assumption|].
    assert (u0 = u) by (apply (NoDup_map_In_eq Usage.usage_id (usage d)); auto).
    subst. eauto.
  - intros [Hu [s [Hs [Eid L]]]]. split; [assumption|].
    exists u, s. auto.
Qed.

Lemma cap_usage_id (u : Usage.row) :
  Usage.usage_id (cap_usage u) = Usage.usage_id u.
Proof. unfold cap_usage. simpl. destruct (gt_cell _ _); reflexivity. Qed.

Lemma imputed_row_id (tbl : list Usage.row) (r : Usage.row) :
  Usage.usage_id (imputed_row tbl r) = Usage.usage_id r.
Proof.
  unfold imputed_row. destruct (Usage.data_usage_gb r); [reflexivity|].
  destruct (Usage.subscriber_id r); [|reflexivity].
  destruct (mean _); reflexivity.
Qed.

Lemma standardize_subscriber_id (s : Sub.row) :
  Sub.subscriber_id (standardize_subscriber s) = Sub.subscriber_id s.
Proof. reflexivity. Qed.

Lemma usage_ids_unique (raw : Tables) :
  NoDup (map Usage.usage_id (usage (before_fix_impossible raw))).
Proof.
  unfold before_fix_impossible, before_missing_values. simpl.
  rewrite impute_usage_rows, !map_map.
  erewrite map_ext.
  - apply (drop_duplicates_NoDup Usage.usage_id).
  - intros u. simpl. now rewrite cap_usage_id, imputed_row_id.
Qed.

Lemma subscriber_ids_unique (raw : Tables) :
  NoDup (map Sub.subscriber_id (subscribers (before_fix_impossible raw))).
Proof.
  unfold before_fix_impossible, before_missing_values. simpl.
  rewrite map_map. erewrite map_ext.
  - apply (drop_duplicates_NoDup Sub.subscriber_id).
  - intros s. apply standardize_subscriber_id.
Qed.

(** C9. [fix_impossible_values] removes every usage row whose
    [subscriber_id] is the id of no subscriber: it has no partner in the
    inner join, so its [usage_id] is not among the valid ones. The
    [usage_id]s are pairwise distinct on the tables [main] hands to the
    stage, which is what makes a [usage_id] stand for one row. *)
Theorem fix_impossible_values_drops_orphan_usage :
  (forall (d : Tables) (u : Usage.row),
     NoDup (map Usage.usage_id (usage d)) ->
     In u (usage d) ->
     (forall s, In s (subscribers d) ->
                Usage.subscriber_id u <> Some (Sub.subscriber_id s)) ->
     ~ In u (usage (fix_impossible_values d)))
  /\ (forall raw : Tables,
        NoDup (map Usage.usage_id (usage (before_fix_impossible raw)))
        /\ main raw = fix_impossible_values (before_fix_impossible raw)).
Proof.
  split.
  - intros d u Hnd Hu Horphan H.
    apply fix_impossible_values_usage_In in H; [|assumption].
    destruct H as [_ [s [Hs [Eid _]]]]. now apply (Horphan s).
  - intros raw. split; [apply usage_ids_unique | reflexivity].
Qed.

(** On the sample, the usage row of [SUB000999], a subscriber that does
    not exist, reaches the stage and is not in the output of [main]. *)
Lemma fix_impossible_values_drops_orphan_usage_witness :
  In sample_orphan (usage (before_fix_impossible sample))
  /\ ~ In sample_orphan (usage (main sample)).
Proof.
  destruct fix_impossible_values_drops_orphan_usage as [Hdrop Hmain].
  destruct (Hmain sample) as [Hnd ->].
  assert (Hin : In sample_orphan (usage (before_fix_impossible sample))).
  { vm_compute. do 6 right. left. reflexivity. }
  split; [exact Hin|].
  apply Hdrop; [exact Hnd | exact Hin |].
  intros s Hs E. vm_compute in Hs.
  destruct Hs as [<- | [<- | []]]; discriminate E.
Defined.

(** C1. In the output of the pipeline every usage row references a
    subscriber of the output and is dated at or after that subscriber's
    [activation_date]; every ticket row that has a [resolution_date] has
    it at or after its [ticket_date]; every billing row has a
    [bill_amount] that is at least 0. *)
Theorem main_preserves_invariants (raw : Tables) :
  (forall u, In u (usage (main raw)) ->
     (exists s, In s (subscribers (main raw))
                /\ Usage.subscriber_id u = Some (Sub.subscriber_id s))
     /\ (forall s, In s (subscribers (main raw)) ->
                   Usage.subscriber_id u = Some (Sub.subscriber_id s) ->
                   (Sub.activation_date s <= Usage.usage_date u)%Z))
  /\ (forall t r, In t (tickets (main raw)) ->
                  Ticket.resolution_date t = Some r ->
                  (Ticket.ticket_date t <= r)%Z)
  /\ (forall b, In b (billing (main raw)) ->
                exists q, Bill.bill_amount b = Some q /\ 0 <= q).
Proof.
  change (main raw) with (fix_impossible_values (before_fix_impossible raw)).
  repeat apply conj.
  - intros u Hu.
    apply fix_impossible_values_usage_In in Hu; [|apply usage_ids_unique].
    destruct Hu as [_ [s [Hs [Eid L]]]].
    change (subscribers (fix_impossible_values (before_fix_impossible raw)))
      with (subscribers (before_fix_impossible raw)).
    split; [exists s; auto|].
    intros s' Hs' Eid'.
    assert (s' = s).
    { apply (NoDup_map_In_eq Sub.subscriber_id
               (subscribers (before_fix_impossible raw))); auto.
      - apply subscriber_ids_unique.
      - congruence. }
    now subst.
  - intros t' r Hin E. simpl in Hin. apply in_map_iff in Hin.
    destruct Hin as [t [<- _]].
    rewrite fix_ticket_resolution in E. rewrite fix_ticket_date.
    destruct (lt_date_cell _ _) eqn:G; [discriminate|].
    rewrite E in G. simpl in G. now apply Z.ltb_ge.
  - intros b Hin. now apply fix_impossible_values_billing_In in Hin.
Qed.

(** On the sample, the first usage row of the output belongs to
    [SUB000001], whose kept row was activated on day 10, and is dated day
    30; the first ticket of the output is resolved a day after it was
    opened. *)
Lemma main_preserves_invariants_witness :
  (exists u s,
     nth_error (usage (main sample)) 0 = Some u
     /\ nth_error (subscribers (main sample)) 0 = Some s
     /\ Usage.subscriber_id u = Some (Sub.subscriber_id s)
     /\ (Sub.activation_date s <= Usage.usage_date u)%Z)
  /\ (exists t r,
        nth_error (tickets (main sample)) 0 = Some t
        /\ Ticket.resolution_date t = Some r
        /\ (Ticket.ticket_date t <= r)%Z).
Proof.
  destruct (main_preserves_invariants sample) as [Hu [Ht _]]. split.
  - destruct (nth_error (usage (main sample)) 0) as [u|] eqn:Eu;
      [|discriminate Eu].
    destruct (nth_error (subscribers (main sample)) 0) as [s|] eqn:Es;
      [|discriminate Es].
    exists u, s. split; [reflexivity|]. split; [reflexivity|].
    assert (Eid : Usage.subscriber_id u = Some (Sub.subscriber_id s)).
    { vm_compute in Eu, Es. inversion Eu; inversion Es; reflexivity. }
    split; [exact Eid|].
    apply (proj2 (Hu u (nth_error_In _ _ Eu)) s (nth_error_In _ _ Es) Eid).
  - destruct (nth_error (tickets (main sample)) 0) as [t|] eqn:Et;
      [|discriminate Et].
    assert (Er : Ticket.resolution_date t = Some (at_day 41)).
    { vm_compute in Et. inversion Et; reflexivity. }
    exists t, (at_day 41). split; [reflexivity|]. split; [exact Er|].
    apply (Ht t (at_day 41) (nth_error_In _ _ Et) Er).
Defined.

(** * Further properties of the cleaning stages *)

(** ** remove_duplicates on tables without duplicates *)

Lemma drop_duplicates_from_distinct {A} (key : A -> string)
    (seen : list string) (l : list A) :
  NoDup (map key l) -> (forall r, In r l -> ~ In (key r) seen) ->
  drop_duplicates_from key seen l = l.
Proof.
  revert seen. induction l as [|a l IH]; intros seen Hnd Hseen; simpl.
  - reflexivity.
  - inversion Hnd as [|? ? Ha Hnd']; subst.
    assert (E : mem (key a) seen = false)
      by (apply mem_not_In, Hseen; now left).
    rewrite E. f_equal. apply IH; [assumption|].
    intros r Hr [K|K].
    + apply Ha. rewrite K. now apply in_map.
    + apply (Hseen r); [now right | assumption].
Qed.

Lemma drop_duplicates_distinct {A} (key : A -> string) (l : list A) :
  NoDup (map key l) -> drop_duplicates key l = l.
Proof.
  intros H. apply drop_duplicates_from_distinct; [assumption|].
  intros r _ [].
Qed.

Lemma drop_duplicates_idempotent {A} (key : A -> string) (l : list A) :
  drop_duplicates key (drop_duplicates key l) = drop_duplicates key l.
Proof. apply drop_duplicates_distinct, drop_duplicates_NoDup. Qed.

(** X1. Running [remove_duplicates] on its own output changes nothing. *)
Theorem remove_duplicates_idempotent (d : Tables) :
  remove_duplicates (remove_duplicates d) = remove_duplicates d.
Proof.
  unfold remove_duplicates. simpl.
  now rewrite !drop_duplicates_idempotent.
Qed.

(** X2. When the key column of each table holds pairwise distinct
    values, [remove_duplicates] returns the five tables as they are, in
    the same order, and every count it prints is zero. *)
Theorem remove_duplicates_distinct_keys (d : Tables) :
  NoDup (map Sub.subscriber_id (subscribers d)) ->
  NoDup (map Usage.usage_id (usage d)) ->
  NoDup (map Bill.bill_id (billing d)) ->
  NoDup (map Ticket.ticket_id (tickets d)) ->
  NoDup (map Outage.outage_id (outages d)) ->
  remove_duplicates d = d
  /\ remove_duplicates_counts d = [0; 0; 0; 0; 0]%nat.
Proof.
  intros Hs Hu Hb Ht Ho. destruct d as [ss us bs ts os]. simpl in *.
  unfold remove_duplicates, remove_duplicates_counts, duplicates_removed.
  simpl. rewrite !drop_duplicates_distinct by assumption.
  rewrite !Nat.sub_diag. split; reflexivity.
Qed.

Lemma remove_duplicates_distinct_keys_witness :
  remove_duplicates canonical_sample = canonical_sample
  /\ remove_duplicates_counts canonical_sample = [0; 0; 0; 0; 0]%nat.
Proof.
  apply remove_duplicates_distinct_keys; simpl;
    repeat constructor; simpl; intuition discriminate.
Defined.

(** ** standardize_labels leaves no variant *)

Lemma find_none_not_variant (m : list (string * string)) (v : string) :
  find (fun kv => String.eqb (fst kv) v) m = None -> is_variant m v = false.
Proof.
  unfold is_variant. induction m as [|kv m IH]; simpl; [reflexivity|].
  destruct (String.eqb (fst kv) v); [discriminate | exact IH].
Qed.

Lemma replace_not_variant_after (m : list (string * string)) (v : string) :
  (forall c, In c (map snd m) -> is_variant m c = false) ->
  is_variant m (replace m v) = false.
Proof.
  intros Hm. unfold replace. destruct (find _ m) as [kv|] eqn:E.
  - apply Hm. apply find_some in E. apply in_map. tauto.
  - now apply find_none_not_variant.
Qed.

Lemma fix_ticket_status_cases (t : Ticket.row) :
  Ticket.ticket_status (fix_ticket t) = "In Progress"
  \/ Ticket.ticket_status (fix_ticket t) = Ticket.ticket_status t.
Proof.
  rewrite fix_ticket_status. destruct (isna _ && _); auto.
Qed.

(** X3. After [standardize_labels] no [plan_type], [city] or
    [ticket_status] is one of the variants of the synonym tables, and
    this still holds of the tables [main] produces: the later stages
    write no variant. *)
Theorem standardize_labels_leaves_no_variant (d : Tables) :
  canonical (standardize_labels d) = true /\ canonical (main d) = true.
Proof.
  assert (Hsub : forall l,
    forallb
      (fun s => negb (is_variant plan_type_mapping (Sub.plan_type s))
                && negb (is_variant city_mapping (Sub.city s)))
      (map standardize_subscriber l) = true).
  { intros l. apply forallb_forall. intros s Hs.
    apply in_map_iff in Hs. destruct Hs as [s0 [<- _]].
    unfold standardize_subscriber, Sub.set_plan_type, Sub.set_city.
    cbn [Sub.plan_type Sub.city].
    rewrite (replace_not_variant_after plan_type_mapping)
      by apply plan_type_targets.
    rewrite (replace_not_variant_after city_mapping) by apply city_targets.
    reflexivity. }
  split; unfold canonical; apply andb_true_iff; split.
  - apply Hsub.
  - unfold standardize_labels. cbn [tickets].
    apply forallb_forall. intros t Ht.
    apply in_map_iff in Ht. destruct Ht as [t0 [<- _]].
    unfold standardize_ticket, Ticket.set_ticket_status.
    cbn [Ticket.ticket_status].
    now rewrite (replace_not_variant_after status_mapping)
      by apply status_targets.
  - apply Hsub.
  - unfold main, fix_impossible_values, handle_outliers,
      handle_missing_values, standardize_labels. cbn [tickets].
    apply forallb_forall. intros t Ht.
    apply in_map_iff in Ht. destruct Ht as [t1 [<- Ht]].
    apply in_map_iff in Ht. destruct Ht as [t2 [<- Ht]].
    apply in_map_iff in Ht. destruct Ht as [t3 [<- _]].
    destruct (fix_ticket_status_cases (flag_ticket (standardize_ticket t3)))
      as [-> | ->]; [reflexivity|].
    rewrite flagged_ticket.
    unfold standardize_ticket, Ticket.set_ticket_status,
      Ticket.set_data_quality_flag.
    cbn [Ticket.ticket_status].
    now rewrite (replace_not_variant_after status_mapping)
      by apply status_targets.
Qed.

(** ** Running a stage again *)

Lemma imputed_row_known (tbl : list Usage.row) (r : Usage.row) :
  isna (Usage.data_usage_gb r) = false -> imputed_row tbl r = r.
Proof.
  unfold imputed_row. destruct (Usage.data_usage_gb r); [reflexivity|].
  discriminate.
Qed.

Lemma imputed_row_complete (tbl : list Usage.row) (r : Usage.row) :
  Usage.subscriber_id r <> None ->
  isna (Usage.data_usage_gb (imputed_row tbl r)) = false.
Proof.
  intros H. unfold imputed_row. destruct (Usage.data_usage_gb r) eqn:E.
  - now rewrite E.
  - destruct (Usage.subscriber_id r); [|contradiction].
    destruct (mean _); reflexivity.
Qed.


Lemma imputed_row_unnamed (tbl : list Usage.row) (r : Usage.row) :
  Usage.subscriber_id r = None -> imputed_row tbl r = r.
Proof.
  intros S. unfold imputed_row. rewrite S.
  destruct (Usage.data_usage_gb r); reflexivity.
Qed.

Lemma imputed_row_settled (tbl tbl' : list Usage.row) (r : Usage.row) :
  imputed_row tbl' (imputed_row tbl r) = imputed_row tbl r.
Proof.
  destruct (Usage.subscriber_id r) as [k|] eqn:S.
  - apply imputed_row_known, imputed_row_complete. congruence.
  - now rewrite !(imputed_row_unnamed _ r S).
Qed.

Lemma impute_usage_idempotent (tbl : list Usage.row) :
  impute_usage (impute_usage tbl) = impute_usage tbl.
Proof.
  rewrite (impute_usage_rows (impute_usage tbl)).
  apply map_fixed. intros r Hr.
  rewrite impute_usage_rows in Hr. apply in_map_iff in Hr.
  destruct Hr as [r0 [<- _]]. apply imputed_row_settled.
Qed.

Lemma flag_bill_rule (b : Bill.row) :
  flag_bill b = Bill.set_data_quality_flag (Some (paid_without_date b)) b.
Proof.
  unfold flag_bill.
  replace (paid_without_date (Bill.set_data_quality_flag (Some false) b))
    with (paid_without_date b) by reflexivity.
  destruct (paid_without_date b); reflexivity.
Qed.

(** X4. [handle_missing_values] is idempotent: applied to its own output
    it returns the same five tables. *)
Theorem handle_missing_values_idempotent (d : Tables) :
  handle_missing_values (handle_missing_values d) = handle_missing_values d.
Proof.
  unfold handle_missing_values. simpl. f_equal.
  - apply impute_usage_idempotent.
  - rewrite map_map. apply map_ext. intros b. now rewrite !flag_bill_rule.
  - rewrite map_map. apply map_ext. intros t. now rewrite !flagged_ticket.
  - rewrite map_map. apply map_ext. intros o. unfold fill_duration.
    destruct (isna (Outage.outage_duration_mins o)) eqn:E.
    + reflexivity.
    + now rewrite E.
Qed.

Lemma cap_usage_again (u : Usage.row) :
  cap_usage (cap_usage u) = Usage.set_outlier_flag (Some false) (cap_usage u).
Proof.
  unfold cap_usage. simpl.
  destruct (gt_cell (Usage.data_usage_gb u) 100) eqn:E; simpl.
  - reflexivity.
  - now rewrite E.
Qed.

(** X5. [handle_outliers] is not idempotent on the flags: run on its own
    output it keeps every value, the billing table and the outage table,
    but it recomputes the usage [outlier_flag] from the capped values, so
    every usage row comes out with the flag false, also the rows the first
    run capped. *)
Theorem handle_outliers_again_clears_usage_flags (d : Tables) :
  usage (handle_outliers (handle_outliers d))
  = map (Usage.set_outlier_flag (Some false)) (usage (handle_outliers d))
  /\ billing (handle_outliers (handle_outliers d))
     = billing (handle_outliers d)
  /\ outages (handle_outliers (handle_outliers d))
     = outages (handle_outliers d).
Proof.
  simpl. repeat apply conj.
  - rewrite !map_map. apply map_ext. apply cap_usage_again.
  - rewrite map_map. apply map_ext. intros b. unfold flag_extreme_bill.
    destruct (gt_cell (Bill.bill_amount b) 2000) eqn:E; simpl; now rewrite E.
  - rewrite map_map. apply map_ext. intros o. reflexivity.
Qed.

Lemma fix_ticket_idempotent (t : Ticket.row) :
  fix_ticket (fix_ticket t) = fix_ticket t.
Proof.
  destruct t as [? ? td ? st ? [r|] ?]; unfold fix_ticket; simpl.
  - destruct (Z.ltb r td) eqn:E; simpl.
    + destruct (String.eqb st "Resolved") eqn:S; simpl; [reflexivity|].
      now rewrite S.
    + now rewrite E.
  - destruct (String.eqb st "Resolved") eqn:S; simpl; [reflexivity|].
    now rewrite S.
Qed.

Lemma filter_all {A} (p : A -> bool) (l : list A) :
  (forall x, In x l -> p x = true) -> filter p l = l.
Proof.
  induction l as [|a l IH]; simpl; intros H; [reflexivity|].
  rewrite H by now left. f_equal. apply IH. intros x Hx. apply H. now right.
Qed.

(** X6. [fix_impossible_values] is idempotent on every input: a second
    run removes no further billing or usage row and changes no ticket. *)
Theorem fix_impossible_values_idempotent (d : Tables) :
  fix_impossible_values (fix_impossible_values d) = fix_impossible_values d.
Proof.
  unfold fix_impossible_values. simpl. f_equal.
  - apply filter_all. intros u Hu. apply mem_In, valid_usage_ids_In.
    apply filter_In in Hu. destruct Hu as [Hu Hv].
    apply mem_In, valid_usage_ids_In in Hv.
    destruct Hv as [u0 [s [Hu0 [Hs [Eid [Ek L]]]]]].
    exists u0, s. repeat split; auto.
    apply filter_In. split; [assumption|].
    apply mem_In, valid_usage_ids_In. exists u0, s. auto.
  - apply filter_all. intros b Hb. now apply filter_In in Hb.
  - rewrite map_map. apply map_ext. apply fix_ticket_idempotent.
Qed.

(** ** The tables [main] produces *)

Lemma NoDup_map_filter {A} (key : A -> string) (p : A -> bool) (l : list A) :
  NoDup (map key l) -> NoDup (map key (filter p l)).
Proof.
  induction l as [|a l IH]; simpl; intros H; [constructor|].
  inversion H as [|? ? Ha Hl]; subst.
  destruct (p a); simpl; [|now apply IH].
  constructor; [|now apply IH].
  intros Hin. apply Ha. apply in_map_iff in Hin.
  destruct Hin as [x [E Hx]]. apply filter_In in Hx.
  apply in_map_iff. exists x. tauto.
Qed.

Lemma flag_bill_id (b : Bill.row) : Bill.bill_id (flag_bill b) = Bill.bill_id b.
Proof. now rewrite flag_bill_rule. Qed.

Lemma flag_extreme_bill_id (b : Bill.row) :
  Bill.bill_id (flag_extreme_bill b) = Bill.bill_id b.
Proof. unfold flag_extreme_bill. destruct (gt_cell _ _); reflexivity. Qed.

Lemma fill_duration_id (o : Outage.row) :
  Outage.outage_id (fill_duration o) = Outage.outage_id o.
Proof. unfold fill_duration. destruct (isna _); reflexivity. Qed.

Lemma main_subscriber_ids (raw : Tables) :
  map Sub.subscriber_id (subscribers (main raw))
  = map Sub.subscriber_id
      (drop_duplicates Sub.subscriber_id (subscribers raw)).
Proof. unfold main. simpl. rewrite map_map. reflexivity. Qed.

Lemma main_ticket_ids (raw : Tables) :
  map Ticket.ticket_id (tickets (main raw))
  = map Ticket.ticket_id (drop_duplicates Ticket.ticket_id (tickets raw)).
Proof.
  unfold main. simpl. rewrite !map_map. apply map_ext. intros t.
  now rewrite fix_ticket_id, flagged_ticket.
Qed.

Lemma main_outage_ids (raw : Tables) :
  map Outage.outage_id (outages (main raw))
  = map Outage.outage_id (drop_duplicates Outage.outage_id (outages raw)).
Proof.
  unfold main. simpl. rewrite !map_map. apply map_ext. intros o.
  unfold flag_extreme_outage. simpl. apply fill_duration_id.
Qed.

Lemma before_fix_bill_ids (raw : Tables) :
  map Bill.bill_id (billing (before_fix_impossible raw))
  = map Bill.bill_id (drop_duplicates Bill.bill_id (billing raw)).
Proof.
  unfold before_fix_impossible, before_missing_values. simpl.
  rewrite !map_map. apply map_ext. intros b.
  now rewrite flag_extreme_bill_id, flag_bill_id.
Qed.

Lemma before_fix_usage_ids (raw : Tables) :
  map Usage.usage_id (usage (before_fix_impossible raw))
  = map Usage.usage_id (drop_duplicates Usage.usage_id (usage raw)).
Proof.
  unfold before_fix_impossible, before_missing_values. simpl.
  rewrite impute_usage_rows, !map_map. apply map_ext. intros u.
  now rewrite cap_usage_id, imputed_row_id.
Qed.

Lemma main_billing (raw : Tables) :
  billing (main raw)
  = filter (fun b => ge_cell (Bill.bill_amount b) 0)
      (billing (before_fix_impossible raw)).
Proof. reflexivity. Qed.

Lemma main_usage (raw : Tables) :
  usage (main raw)
  = filter
      (fun u =>
         mem (Usage.usage_id u)
           (valid_usage_ids (usage (before_fix_impossible raw))
              (subscribers (before_fix_impossible raw))))
      (usage (before_fix_impossible raw)).
Proof. reflexivity. Qed.

(** X7. In each of the five tables [main] produces, the key column
    holds pairwise distinct values. *)
Theorem main_keys_distinct (raw : Tables) :
  NoDup (map Sub.subscriber_id (subscribers (main raw)))
  /\ NoDup (map Usage.usage_id (usage (main raw)))
  /\ NoDup (map Bill.bill_id (billing (main raw)))
  /\ NoDup (map Ticket.ticket_id (tickets (main raw)))
  /\ NoDup (map Outage.outage_id (outages (main raw))).
Proof.
  repeat apply conj.
  - rewrite main_subscriber_ids. apply drop_duplicates_NoDup.
  - rewrite main_usage. apply NoDup_map_filter. apply usage_ids_unique.
  - rewrite main_billing. apply NoDup_map_filter. rewrite before_fix_bill_ids.
    apply drop_duplicates_NoDup.
  - rewrite main_ticket_ids. apply drop_duplicates_NoDup.
  - rewrite main_outage_ids. apply drop_duplicates_NoDup.
Qed.

(** X8. After deduplication no subscriber, ticket or outage row is ever
    removed or reordered: the keys of these three output tables are the
    keys of the deduplicated input, in the same order. Usage and billing
    rows can only be removed: every [usage_id] and [bill_id] of the
    output is one of the input. *)
Theorem main_keeps_rows (raw : Tables) :
  map Sub.subscriber_id (subscribers (main raw))
  = map Sub.subscriber_id
      (subscribers (remove_duplicates raw))
  /\ map Ticket.ticket_id (tickets (main raw))
     = map Ticket.ticket_id (tickets (remove_duplicates raw))
  /\ map Outage.outage_id (outages (main raw))
     = map Outage.outage_id (outages (remove_duplicates raw))
  /\ incl (map Usage.usage_id (usage (main raw)))
          (map Usage.usage_id (usage raw))
  /\ incl (map Bill.bill_id (billing (main raw)))
          (map Bill.bill_id (billing raw)).
Proof.
  repeat apply conj.
  - apply main_subscriber_ids.
  - apply main_ticket_ids.
  - apply main_outage_ids.
  - intros k Hk. rewrite main_usage in Hk. apply in_map_iff in Hk. destruct Hk as [u [<- Hu]].
    apply filter_In in Hu. destruct Hu as [Hu _].
    apply (in_map Usage.usage_id) in Hu. rewrite before_fix_usage_ids in Hu.
    apply in_map_iff in Hu. destruct Hu as [u0 [<- Hu0]].
    apply in_map. now apply drop_duplicates_incl in Hu0.
  - intros k Hk. rewrite main_billing in Hk. apply in_map_iff in Hk. destruct Hk as [b [<- Hb]].
    apply filter_In in Hb. destruct Hb as [Hb _].
    apply (in_map Bill.bill_id) in Hb. rewrite before_fix_bill_ids in Hb.
    apply in_map_iff in Hb. destruct Hb as [b0 [<- Hb0]].
    apply in_map. now apply drop_duplicates_incl in Hb0.
Qed.





(** ** The counts of [fix_impossible_values] against the rows it removes *)

Lemma count_cons {A} (p : A -> bool) (a : A) (l : list A) :
  count p (a :: l) = (Nat.b2n (p a) + count p l)%nat.
Proof. unfold count. simpl. destruct (p a); reflexivity. Qed.


Lemma count_ext_in {A} (p q : A -> bool) (l : list A) :
  (forall x, In x l -> p x = q x) -> count p l = count q l.
Proof. intros H. unfold count. now rewrite (filter_ext_in p q l H). Qed.

Lemma count_map {A B} (p : B -> bool) (f : A -> B) (l : list A) :
  count p (map f l) = count (fun x => p (f x)) l.
Proof.
  induction l as [|a l IH]; [reflexivity|].
  simpl. now rewrite !count_cons, IH.
Qed.

Lemma length_three_way {A} (p1 p2 p3 : A -> bool) (l : list A) :
  (forall x, In x l ->
     (Nat.b2n (p1 x) + Nat.b2n (p2 x) + Nat.b2n (p3 x) = 1)%nat) ->
  List.length l = (count p1 l + count p2 l + count p3 l)%nat.
Proof.
  induction l as [|a l IH]; intros H; [reflexivity|].
  rewrite !count_cons. simpl List.length.
  rewrite IH by (intros x Hx; apply H; now right).
  specialize (H a (or_introl eq_refl)). lia.
Qed.

(** X10. The rows [fix_impossible_values] removes from the billing table
    are the rows with a negative amount, which it counts and prints, and
    the rows with a missing amount, which it does not count: the input
    length is the output length plus [negative_bills] plus the number of
    missing amounts. *)
Theorem fix_impossible_values_billing_count (d : Tables) :
  List.length (billing d)
  = (List.length (billing (fix_impossible_values d))
     + negative_bills d
     + count (fun b => isna (Bill.bill_amount b)) (billing d))%nat.
Proof.
  simpl. unfold negative_bills.
  change (List.length (filter (fun b => ge_cell (Bill.bill_amount b) 0)
                         (billing d)))
    with (count (fun b => ge_cell (Bill.bill_amount b) 0) (billing d)).
  apply length_three_way. intros b _.
  destruct (Bill.bill_amount b) as [q|]; simpl; [|reflexivity].
  unfold Qgeb, Qgtb. destruct (Qle_bool 0 q); reflexivity.
Qed.

Section UniquePartner.
Context {A : Type} (key : A -> string).




End UniquePartner.

Section UsageCount.
Variable ss : list Sub.row.
Hypothesis ss_distinct : NoDup (map Sub.subscriber_id ss).









End UsageCount.



(** ** generate_summary_report against the counts of the stages *)

Lemma count_filter_le {A} (p q : A -> bool) (l : list A) :
  (count p (filter q l) <= count p l)%nat.
Proof.
  induction l as [|a l IH]; [apply Nat.le_refl|].
  simpl filter. destruct (q a); rewrite !count_cons; lia.
Qed.

Lemma count_orb_le {A} (p q : A -> bool) (l : list A) :
  (count (fun x => p x || q x) l <= count p l + count q l)%nat.
Proof.
  induction l as [|a l IH]; [apply Nat.le_refl|].
  rewrite !count_cons. destruct (p a), (q a); simpl; lia.
Qed.

(** X12. The flag counts of the final report agree with what the stages
    printed while [main] ran: the flagged tickets are the tickets stage 3
    counted as Resolved without a date, the outage outliers are the
    outages stage 4 counted above 24 hours, the usage outliers are at most
    the values stage 4 capped, and the flagged bills are at most the bills
    stage 3 and stage 4 counted together. *)
Theorem generate_summary_report_agrees_with_stages (raw : Tables) :
  let report := generate_summary_report (main raw) in
  let d3 := before_missing_values raw in
  let d4 := handle_missing_values d3 in
  tickets_flagged report = missing_resolution d3
  /\ outage_outliers report = extreme_outages d4
  /\ (usage_outliers report <= extreme_usage d4)%nat
  /\ (billing_flagged report <= missing_payment d3 + extreme_bills d4)%nat.
Proof.
  cbv zeta. repeat apply conj.
  - unfold generate_summary_report, missing_resolution, main. simpl.
    rewrite !count_map. apply count_ext_in. intros t _.
    rewrite fix_ticket_flag, flagged_ticket.
    unfold Ticket.set_data_quality_flag. cbn [Ticket.data_quality_flag is_true].
    destruct (resolved_without_date _); reflexivity.
  - unfold generate_summary_report, extreme_outages, main. simpl.
    rewrite (count_map (fun o => is_true (Outage.outlier_flag o))).
    apply count_ext_in. intros o _. unfold flag_extreme_outage.
    cbn [Outage.outlier_flag Outage.set_outlier_flag].
    destruct (gt_cell _ _); reflexivity.
  - unfold generate_summary_report, extreme_usage.
    cbn [usage_outliers]. rewrite main_usage.
    eapply Nat.le_trans; [apply count_filter_le|].
    unfold before_fix_impossible. cbn [usage handle_outliers].
    rewrite count_map. apply Nat.eq_le_incl, count_ext_in. intros u _.
    unfold cap_usage. simpl.
    destruct (gt_cell (Usage.data_usage_gb u) 100); reflexivity.
  - unfold generate_summary_report, missing_payment, extreme_bills.
    cbn [billing_flagged]. rewrite main_billing.
    eapply Nat.le_trans; [apply count_filter_le|].
    unfold before_fix_impossible, handle_outliers, handle_missing_values.
    cbn [billing]. rewrite !count_map.
    eapply Nat.le_trans; [|apply count_orb_le].
    apply Nat.eq_le_incl, count_ext_in. intros b _.
    rewrite flagged_bill, flag_bill_rule.
    unfold Bill.set_data_quality_flag.
    cbn [Bill.data_quality_flag Bill.bill_amount].
    destruct (paid_without_date b), (gt_cell _ _); reflexivity.
Qed.

(** * The dashboard *)

(** ** Duplicates: the dashboard's count and the cleaner's *)

Lemma duplicated_from_count {A} (key : A -> string) (seen : list string)
    (l : list A) :
  (count (fun b : bool => b) (duplicated_from seen (map key l))
   + List.length (drop_duplicates_from key seen l))%nat
  = List.length l.
Proof.
  revert seen. induction l as [|a l IH]; intros seen; [reflexivity|].
  simpl. destruct (mem (key a) seen).
  - rewrite count_cons. simpl. now rewrite IH.
  - rewrite count_cons. simpl. rewrite <- plus_n_Sm. now rewrite IH.
Qed.

Lemma duplicated_count {A} (key : A -> string) (l : list A) :
  count (fun b : bool => b) (duplicated (map key l))
  = duplicates_removed key l.
Proof.
  unfold duplicates_removed, duplicated, drop_duplicates.
  pose proof (duplicated_from_count key [] l). lia.
Qed.

(** X14. The duplicate counts the dashboard shows for subscribers,
    tickets and bills are the numbers [remove_duplicates] prints for the
    same tables, and each is the number of rows [remove_duplicates]
    drops: rows in = rows out + duplicates. *)
Theorem dashboard_duplicates_are_rows_removed (d : Tables) :
  Dashboard.dup_subscribers d
  = duplicates_removed Sub.subscriber_id (subscribers d)
  /\ Dashboard.dup_tickets d = duplicates_removed Ticket.ticket_id (tickets d)
  /\ Dashboard.dup_billing d = duplicates_removed Bill.bill_id (billing d)
  /\ List.length (subscribers d)
     = (List.length (subscribers (remove_duplicates d))
        + Dashboard.dup_subscribers d)%nat
  /\ List.length (tickets d)
     = (List.length (tickets (remove_duplicates d))
        + Dashboard.dup_tickets d)%nat
  /\ List.length (billing d)
     = (List.length (billing (remove_duplicates d))
        + Dashboard.dup_billing d)%nat.
Proof.
  unfold Dashboard.dup_subscribers, Dashboard.dup_tickets,
    Dashboard.dup_billing, duplicated, remove_duplicates, drop_duplicates.
  cbn [subscribers tickets billing].
  pose proof (duplicated_from_count Sub.subscriber_id [] (subscribers d)).
  pose proof (duplicated_from_count Ticket.ticket_id [] (tickets d)).
  pose proof (duplicated_from_count Bill.bill_id [] (billing d)).
  repeat apply conj;
    try apply (duplicated_count Sub.subscriber_id);
    try apply (duplicated_count Ticket.ticket_id);
    try apply (duplicated_count Bill.bill_id); lia.
Qed.

(** ** The quality report of cleaned tables *)




(** ** SLA compliance *)

Lemma count_le_length {A} (p : A -> bool) (l : list A) :
  (count p l <= List.length l)%nat.
Proof.
  induction l as [|a l IH]; [apply Nat.le_refl|].
  rewrite count_cons. simpl. destruct (p a); simpl; lia.
Qed.

(** X16. The SLA compliance rate the dashboard shows is a percentage
    between 0 and 100 on every input, and it is 0 when no ticket is
    Resolved, where the guard avoids the division by zero. *)
Theorem sla_rate_is_percentage (d : Tables) :
  (0 <= Dashboard.sla_rate d /\ Dashboard.sla_rate d <= 100)
  /\ (Dashboard.resolved d = [] -> Dashboard.sla_rate d = 0).
Proof.
  unfold Dashboard.sla_rate, Dashboard.sla_compliant. split.
  - destruct (Nat.ltb_spec 0 (List.length (Dashboard.resolved d))) as [Hn|Hn];
      [|split; discriminate].
    pose proof (count_le_length
                  (fun t => le_cell (Dashboard.resolution_time t) 48)
                  (Dashboard.resolved d)) as Hc.
    set (c := count _ _) in *. set (n := List.length _) in *.
    assert (Hn' : 0 < inject_Z (Z.of_nat n)).
    { change 0 with (inject_Z 0). rewrite <- Zlt_Qlt. lia. }
    assert (Hc0 : 0 <= inject_Z (Z.of_nat c)).
    { change 0 with (inject_Z 0). rewrite <- Zle_Qle. lia. }
    assert (Hcn : inject_Z (Z.of_nat c) <= inject_Z (Z.of_nat n)).
    { rewrite <- Zle_Qle. lia. }
    split.
    + apply Qmult_le_0_compat; [|discriminate].
      apply Qle_shift_div_l; [exact Hn'|]. now rewrite Qmult_0_l.
    + setoid_replace 100 with (1 * 100) at 2 by reflexivity.
      apply Qmult_le_compat_r; [|discriminate].
      apply Qle_shift_div_r; [exact Hn'|]. now rewrite Qmult_1_l.
  - intros ->. reflexivity.
Qed.

(** The canonical sample has no Resolved ticket. *)
Lemma sla_rate_is_percentage_witness :
  Dashboard.resolved canonical_sample = []
  /\ Dashboard.sla_rate canonical_sample = 0.
Proof.
  split; [reflexivity|].
  apply (proj2 (sla_rate_is_percentage canonical_sample)). reflexivity.
Defined.

(** * The generator's label injection against standardize_labels *)

Lemma inject_from_None (variations : list (string * list string))
    (draws : list (nat * nat)) :
  fold_left
    (fun acc draw =>
       match acc with
       | Some result => Generator.inject_one variations result draw
       | None => None
       end)
    draws None
  = None.
Proof. induction draws as [|dr draws IH]; [reflexivity | exact IH]. Qed.

Lemma inject_cons (variations : list (string * list string))
    (series : list string) (dr : nat * nat) (draws : list (nat * nat)) :
  Generator.inject_inconsistent_labels series variations (dr :: draws)
  = match Generator.inject_one variations series dr with
    | Some result =>
        Generator.inject_inconsistent_labels result variations draws
    | None => None
    end.
Proof.
  unfold Generator.inject_inconsistent_labels. simpl.
  destruct (Generator.inject_one variations series dr); [reflexivity|].
  apply inject_from_None.
Qed.

Lemma map_set_iloc (f : string -> string) (l : list string) (i : nat)
    (o v : string) :
  nth_error l i = Some o -> f v = f o ->
  map f (Generator.set_iloc i v l) = map f l.
Proof.
  revert i. induction l as [|x l IH]; intros i; [reflexivity|].
  destruct i as [|i]; simpl.
  - intros E Hf. inversion E; subst. now rewrite Hf.
  - intros E Hf. now rewrite IH.
Qed.

Section Undo.
Variable mapping : list (string * string).
Variable variations : list (string * list string).
Hypothesis undo : undoes mapping variations = true.

Lemma undoes_spelling (original v : string) (spellings : list string) :
  Generator.lookup variations original = Some spellings ->
  In v spellings ->
  replace mapping v = replace mapping original.
Proof.
  unfold Generator.lookup. intros L Hv.
  destruct (find _ variations) as [kv|] eqn:F; [|discriminate].
  inversion L; subst. apply find_some in F. destruct F as [Hkv Ek].
  apply String.eqb_eq in Ek. subst original.
  unfold undoes in undo. rewrite forallb_forall in undo.
  specialize (undo kv Hkv). apply andb_true_iff in undo.
  destruct undo as [Hc Hs]. apply String.eqb_eq in Hc.
  rewrite forallb_forall in Hs. specialize (Hs v Hv).
  apply String.eqb_eq in Hs. congruence.
Qed.

Lemma inject_one_undone (result result' : list string) (dr : nat * nat) :
  Generator.inject_one variations result dr = Some result' ->
  map (replace mapping) result' = map (replace mapping) result.
Proof.
  unfold Generator.inject_one.
  destruct (nth_error result (fst dr)) as [original|] eqn:E; [|discriminate].
  destruct (Generator.lookup variations original) as [spellings|] eqn:L.
  - destruct (nth_error spellings _) as [v|] eqn:V; [|discriminate].
    intros H. inversion H; subst.
    apply (map_set_iloc _ _ _ original); [exact E|].
    apply (undoes_spelling original v spellings L).
    exact (nth_error_In _ _ V).
  - intros H. now inversion H.
Qed.

Lemma inject_undone (draws : list (nat * nat)) (series result : list string) :
  Generator.inject_inconsistent_labels series variations draws = Some result ->
  map (replace mapping) result = map (replace mapping) series.
Proof.
  revert series. induction draws as [|dr draws IH]; intros series.
  - intros H. now inversion H.
  - rewrite inject_cons.
    destruct (Generator.inject_one variations series dr) as [r|] eqn:E;
      [|discriminate].
    intros H. rewrite (IH r H). now apply inject_one_undone with dr.
Qed.

Lemma undoes_round_trip : round_trip mapping variations.
Proof.
  intros series draws result H.
  pose proof (inject_undone draws series result H) as R.
  split; [exact R|].
  intros Hc. rewrite R. apply map_fixed. intros v Hv.
  rewrite forallb_forall in Hc. specialize (Hc v Hv).
  apply negb_true_iff in Hc. now apply replace_not_variant.
Qed.

End Undo.

(** X18. [standardize_labels] undoes the generator's label injection:
    for plan types, cities and ticket statuses, whatever indices and
    spellings [inject_inconsistent_labels] draws, standardizing the
    injected labels gives the same as standardizing the labels before
    injection, and gives back the labels themselves when none of them was
    a variant. *)
Theorem standardize_labels_undoes_injection :
  round_trip plan_type_mapping Generator.plan_variations
  /\ round_trip city_mapping Generator.city_variations
  /\ round_trip status_mapping Generator.status_variations.
Proof. split; [|split]; apply undoes_round_trip; reflexivity. Qed.

(** Three plan types, with the first and the third drawn: the injected
    series reads PREPAID, Postpaid, postpaid, and standardizing it gives
    the series back. *)
Lemma standardize_labels_undoes_injection_witness :
  Generator.inject_inconsistent_labels ["Prepaid"; "Postpaid"; "Postpaid"]
    Generator.plan_variations [(0, 3); (2, 1)]%nat
  = Some ["PREPAID"; "Postpaid"; "postpaid"]
  /\ map (replace plan_type_mapping) ["PREPAID"; "Postpaid"; "postpaid"]
     = ["Prepaid"; "Postpaid"; "Postpaid"].
Proof.
  split; [reflexivity|].
  apply (proj1 standardize_labels_undoes_injection
           ["Prepaid"; "Postpaid"; "Postpaid"] [(0, 3); (2, 1)]%nat);
    reflexivity.
Defined.

(** ** What the injection touches *)

Lemma set_iloc_length (i : nat) (v : string) (l : list string) :
  List.length (Generator.set_iloc i v l) = List.length l.
Proof.
  revert i. induction l as [|x l IH]; intros i; [reflexivity|].
  destruct i; simpl; [reflexivity | now rewrite IH].
Qed.

Lemma nth_error_set_iloc_same (i : nat) (v o : string) (l : list string) :
  nth_error l i = Some o -> nth_error (Generator.set_iloc i v l) i = Some v.
Proof.
  revert i. induction l as [|x l IH]; intros i.
  - destruct i; discriminate.
  - destruct i; simpl; [reflexivity | apply IH].
Qed.

Lemma nth_error_set_iloc_other (i j : nat) (v : string) (l : list string) :
  i <> j -> nth_error (Generator.set_iloc i v l) j = nth_error l j.
Proof.
  revert i j. induction l as [|x l IH]; intros i j H; [reflexivity|].
  destruct i, j; simpl; try reflexivity; try contradiction.
  apply IH. congruence.
Qed.

Section InjectionFrame.
Variable variations : list (string * list string).

(** What a drawn position holds afterwards, given the label [o] it held:
    [o] itself when [o] has no listed spelling, else one of its
    spellings. *)
Let written (o v : string) : Prop :=
  (Generator.lookup variations o = None /\ v = o)
  \/ (exists spellings,
        Generator.lookup variations o = Some spellings /\ In v spellings).

Lemma inject_one_frame (result result' : list string) (dr : nat * nat) :
  Generator.inject_one variations result dr = Some result' ->
  List.length result' = List.length result
  /\ (forall j, j <> fst dr -> nth_error result' j = nth_error result j)
  /\ (exists o v,
        nth_error result (fst dr) = Some o
        /\ nth_error result' (fst dr) = Some v
        /\ written o v).
Proof.
  unfold Generator.inject_one.
  destruct (nth_error result (fst dr)) as [o|] eqn:E; [|discriminate].
  destruct (Generator.lookup variations o) as [spellings|] eqn:L.
  - destruct (nth_error spellings _) as [v|] eqn:V; [|discriminate].
    intros H. inversion H; subst. repeat apply conj.
    + apply set_iloc_length.
    + intros j Hj. apply nth_error_set_iloc_other. congruence.
    + exists o, v. repeat split; auto.
      * now apply nth_error_set_iloc_same with o.
      * right. exists spellings. split; [exact L|].
        exact (nth_error_In _ _ V).
  - intros H. inversion H; subst. repeat apply conj; auto.
    exists o, o. repeat split; auto. left. auto.
Qed.

Lemma inject_frame (draws : list (nat * nat)) (series result : list string) :
  NoDup (map fst draws) ->
  Generator.inject_inconsistent_labels series variations draws = Some result ->
  List.length result = List.length series
  /\ (forall i, ~ In i (map fst draws) ->
                nth_error result i = nth_error series i)
  /\ (forall i, In i (map fst draws) ->
        exists o v,
          nth_error series i = Some o /\ nth_error result i = Some v
          /\ written o v).
Proof.
  revert series. induction draws as [|dr draws IH]; intros series Hnd.
  - intros H. inversion H; subst. repeat split; auto. intros i [].
  - rewrite inject_cons.
    destruct (Generator.inject_one variations series dr) as [r|] eqn:E;
      [|discriminate].
    intros H. inversion Hnd as [|? ? Hdr Hnd']; subst.
    destruct (inject_one_frame series r dr E) as [Len [Other Here]].
    destruct (IH r Hnd' H) as [Len' [Out In']].
    repeat apply conj.
    + congruence.
    + intros i Hi. simpl in Hi. rewrite Out by tauto.
      apply Other. intros ->. tauto.
    + intros i [<- | Hi].
      * destruct Here as [o [v [Eo [Ev W]]]]. exists o, v.
        repeat split; auto. now rewrite Out.
      * destruct (In' i Hi) as [o [v [Eo [Ev W]]]]. exists o, v.
        repeat split; auto. rewrite <- Other; [exact Eo|].
        intros ->. contradiction.
Qed.

End InjectionFrame.

(** X19. When the drawn indices are pairwise distinct, as sampling
    without replacement makes them, a run of [inject_inconsistent_labels]
    that succeeds keeps the length of the series, leaves every position
    that was not drawn as it was, and writes at a drawn position one of
    the spellings listed for the label found there, or nothing when that
    label has no spellings. *)
Theorem inject_inconsistent_labels_frame
    (variations : list (string * list string))
    (series result : list string) (draws : list (nat * nat)) :
  NoDup (map fst draws) ->
  Generator.inject_inconsistent_labels series variations draws = Some result ->
  List.length result = List.length series
  /\ (forall i, ~ In i (map fst draws) ->
                nth_error result i = nth_error series i)
  /\ (forall i, In i (map fst draws) ->
        exists o v,
          nth_error series i = Some o /\ nth_error result i = Some v
          /\ ((Generator.lookup variations o = None /\ v = o)
              \/ (exists spellings,
                    Generator.lookup variations o = Some spellings
                    /\ In v spellings))).
Proof. intros Hnd H. exact (inject_frame variations draws series result Hnd H). Qed.

(** Three cities with the first and the third drawn: Sharjah has no
    listed spelling and stays, Dubai becomes dubai, the second position
    is untouched. *)
Lemma inject_inconsistent_labels_frame_witness :
  Generator.inject_inconsistent_labels ["Sharjah"; "Dubai"; "Dubai"]
    Generator.city_variations [(0, 1); (2, 1)]%nat
  = Some ["Sharjah"; "Dubai"; "dubai"]
  /\ List.length ["Sharjah"; "Dubai"; "dubai"] = 3%nat.
Proof.
  split; [reflexivity|].
  apply (inject_inconsistent_labels_frame Generator.city_variations
           ["Sharjah"; "Dubai"; "Dubai"] ["Sharjah"; "Dubai"; "dubai"]
           [(0, 1); (2, 1)]%nat).
  - simpl. repeat constructor; simpl; intuition discriminate.
  - reflexivity.
Defined.

(** * What handle_missing_values fills and what it only flags *)


(** * The dashboard's thresholds against the cleaner's *)

Lemma count_le_mono {A} (p q : A -> bool) (l : list A) :
  (forall x, In x l -> p x = true -> q x = true) ->
  (count p l <= count q l)%nat.
Proof.
  induction l as [|a l IH]; intros H; [apply Nat.le_refl|].
  rewrite !count_cons.
  assert (Hl : (count p l <= count q l)%nat)
    by (apply IH; intros x Hx; apply H; now right).
  destruct (p a) eqn:P; [|simpl; lia].
  rewrite (H a (or_introl eq_refl) P). simpl. lia.
Qed.

Lemma gt_cell_weaken (c : option Q) (k k' : Q) :
  k' <= k -> gt_cell c k = true -> gt_cell c k' = true.
Proof.
  intros Hk H. apply gt_cell_true in H. destruct H as [q [E L]].
  apply gt_cell_true. exists q. split; [exact E|].
  now apply Qle_lt_trans with k.
Qed.

(** X21. What the dashboard counts as an outlier the cleaner treats as
    one: on any tables the usage values above 500 are at most those
    [handle_outliers] counts above 100 and the bills above 5000 at most
    those it counts above 2000; and in the output of [main] every bill
    above 5000 carries the flag, so the dashboard's outlier bills are at
    most the flagged bills of the final report, as the flagged tickets are
    at most the tickets the dashboard shows without [resolution_date]. *)
Theorem dashboard_outliers_are_flagged :
  (forall d : Tables,
     (Dashboard.outlier_usage d <= extreme_usage d)%nat
     /\ (Dashboard.outlier_bills d <= extreme_bills d)%nat)
  /\ (forall raw : Tables,
        (Dashboard.outlier_bills (main raw)
         <= billing_flagged (generate_summary_report (main raw)))%nat
        /\ (tickets_flagged (generate_summary_report (main raw))
            <= Dashboard.missing_tickets (main raw))%nat).
Proof.
  split.
  - intros d. split; apply count_le_mono; intros x _;
      apply gt_cell_weaken; discriminate.
  - intros raw. split.
    + unfold Dashboard.outlier_bills, generate_summary_report.
      cbn [billing_flagged]. apply count_le_mono. intros b Hb G.
      rewrite main_billing in Hb. apply filter_In in Hb.
      destruct Hb as [Hb _].
      unfold before_fix_impossible, handle_outliers, handle_missing_values
        in Hb. cbn [billing] in Hb. rewrite map_map in Hb.
      apply in_map_iff in Hb. destruct Hb as [b0 [<- _]].
      rewrite flagged_bill in *. unfold Bill.set_data_quality_flag in *.
      cbn [Bill.data_quality_flag Bill.bill_amount] in *.
      rewrite (gt_cell_weaken _ 5000 2000) by (discriminate || exact G).
      now rewrite orb_true_r.
    + unfold Dashboard.missing_tickets, generate_summary_report.
      cbn [tickets_flagged]. apply count_le_mono. intros t Ht F.
      unfold main in Ht. simpl in Ht. rewrite map_map in Ht.
      apply in_map_iff in Ht. destruct Ht as [t0 [<- _]].
      rewrite fix_ticket_flag, flagged_ticket in F.
      unfold Ticket.set_data_quality_flag in F.
      cbn [Ticket.data_quality_flag] in F.
      assert (R : resolved_without_date t0 = true)
        by (destruct (resolved_without_date t0); [reflexivity | discriminate]).
      apply resolved_without_date_true in R. destruct R as [_ N].
      rewrite fix_ticket_resolution, flagged_ticket.
      unfold Ticket.set_data_quality_flag.
      cbn [Ticket.resolution_date Ticket.ticket_date].
      now rewrite N.
Qed.
